(** * Event.js: the asynchronous event mixin and its deferred scheduler

    A shallow embedding of [src/event/event.js] (the [EventMixin] object with
    [on], [off] and [trigger]) and of the [modelo/defer] module (the
    [defer] selection, its message listener and the environment detection
    of its loader), followed by the properties of the registry semantics,
    of the scheduler and of the loader.

    Conventions of the embedding.
    - A JavaScript value is a [value]; functions and objects carry a
      reference, so that [===] on them is reference equality.  Numbers are
      the integers plus [NaN]: nothing in the code computes with them, only
      their truthiness and [===] matter.
    - [this.events] is a plain object used as a map from event names to
      arrays of subscriptions.  Its own properties are a [gmap string entry];
      a read of a name it does not own goes on to [Object.prototype], whose
      members are functions (and [__proto__]), so an [entry] is an array of
      subscriptions, such a function, or the prototype object itself.
    - A call either returns or throws: [completion].  Methods that end in
      [return this] return the updated receiver; [on] and [trigger] can
      change the receiver before they throw, and their result carries the
      receiver in both cases ([call]).
    - [defer(defer.bind(callback, ctx))] is a call into the scheduler
      package; [trigger] returns, next to the receiver, the tasks it
      submitted, in submission order. *)

From Stdlib Require Import ZArith.
From stdpp Require Import gmap strings list fin_maps.

Local Open Scope string_scope.
Local Open Scope list_scope.

(** ** JavaScript values *)

Inductive value : Type :=
| VUndefined
| VNull
| VBool (b : bool)
| VNum (n : Z)
| VNaN
| VStr (s : string)
| VFun (ref : nat)
| VObj (ref : nat).

(** [typeof v === "function"] *)
Definition is_function (v : value) : bool :=
  match v with VFun _ => true | _ => false end.

(** ToBoolean *)
Definition truthy (v : value) : bool :=
  match v with
  | VUndefined | VNull | VNaN => false
  | VBool b => b
  | VNum n => negb (n =? 0)%Z
  | VStr s => negb (String.eqb s "")
  | VFun _ | VObj _ => true
  end.

(** [a === b] *)
Definition strict_eq (a b : value) : bool :=
  match a, b with
  | VUndefined, VUndefined => true
  | VNull, VNull => true
  | VBool x, VBool y => Bool.eqb x y
  | VNum x, VNum y => (x =? y)%Z
  | VStr x, VStr y => String.eqb x y
  | VFun x, VFun y => Nat.eqb x y
  | VObj x, VObj y => Nat.eqb x y
  | _, _ => false
  end.

(** [a || b] *)
Definition js_or (a b : value) : value := if truthy a then a else b.

(** ** Completions *)

Inductive exn : Type :=
| TypeError
| Error (message : string).

Inductive completion (A : Type) : Type :=
| Return (a : A)
| Throw (e : exn).
Arguments Return {A} a.
Arguments Throw {A} e.

Definition and_then {A B} (c : completion A) (k : A -> completion B) : completion B :=
  match c with
  | Return a => k a
  | Throw e => Throw e
  end.

Notation "'let*' x ':=' c 'in' k" := (and_then c (fun x => k))
  (at level 10, x name, c at level 100, k at level 200).

(** [Array.prototype.splice(start, deleteCount)] for [0 <= start]. *)
Definition splice {A} (start deleteCount : nat) (l : list A) : list A :=
  take start l ++ drop (start + deleteCount) l.

(** ** The event registry, [src/event/event.js] *)

Module Event.

Record subscription : Type := Subscription {
  callback : value;
  context : value
}.

(** The function object built by [defer.bind(callback, ctx)]. *)
Inductive task : Type :=
| Bound (callback context : value).

(** What [this.events[event]] can be when it is not [undefined]: an array of
    subscriptions; a function of [Object.prototype], of which the methods
    read only the [length]; or [Object.prototype] itself, read through
    [__proto__]. *)
Inductive entry : Type :=
| Array (arr : list subscription)
| Function (length : nat)
| Prototype.

(** The own properties of [this.events]. *)
Record EventMixin : Type := Mixin {
  events : gmap string entry
}.

(** [Modelo.define(function () { this.events = {}; })] *)
Definition create : EventMixin := {| events := ∅ |}.

(** The members of [Object.prototype], which [{}] inherits: each function
    with its [length], and the accessor [__proto__]. *)
Definition prototype_members : list (string * entry) :=
  [ ("constructor", Function 1);
    ("toString", Function 0);
    ("toLocaleString", Function 0);
    ("valueOf", Function 0);
    ("hasOwnProperty", Function 1);
    ("isPrototypeOf", Function 1);
    ("propertyIsEnumerable", Function 1);
    ("__defineGetter__", Function 2);
    ("__defineSetter__", Function 2);
    ("__lookupGetter__", Function 1);
    ("__lookupSetter__", Function 1);
    ("__proto__", Prototype) ].

Definition object_prototype (name : string) : option entry :=
  match List.find (fun member => String.eqb (fst member) name)
          prototype_members with
  | Some member => Some (snd member)
  | None => None
  end.

(** The property key of an event argument; an omitted argument is
    [undefined], whose key is the string "undefined". *)
Definition key (event : option string) : string :=
  match event with
  | Some name => name
  | None => "undefined"
  end.

(** [event === undefined] *)
Definition event_undefined (event : option string) : bool :=
  match event with None => true | Some _ => false end.

(** [this.events[event]]: the own property, else the inherited one; [None]
    is [undefined]. *)
Definition read (this : EventMixin) (event : option string) : option entry :=
  match events this !! key event with
  | Some e => Some e
  | None => object_prototype (key event)
  end.

(** [this.events[event] || []]: arrays, functions and the prototype object
    are all truthy. *)
Definition events_or_empty (this : EventMixin) (event : option string)
  : entry :=
  match read this event with
  | Some e => e
  | None => Array []
  end.

(** [this.events[event] = e], with [e] the value of
    [this.events[event] || []].  Under [__proto__] the assignment calls the
    setter with the prototype it has just read and changes nothing; under
    any other name it makes [e] an own property. *)
Definition store (this : EventMixin) (event : option string) (e : entry)
  : EventMixin :=
  if String.eqb (key event) "__proto__" then this
  else {| events := <[key event := e]> (events this) |}.

(** The mutation, by [push] or [splice], of the array that is the own
    property [this.events[event]]. *)
Definition set_events (this : EventMixin) (event : option string)
    (arr : list subscription) : EventMixin :=
  {| events := <[key event := Array arr]> (events this) |}.

(** The result of a method that can change the receiver before it throws:
    the receiver as the call leaves it, with what the call produced when it
    returned [this]. *)
Inductive call (A : Type) : Type :=
| Returns (this : EventMixin) (a : A)
| Throws (this : EventMixin) (e : exn).
Arguments Returns {A} this a.
Arguments Throws {A} this e.

Definition receiver {A} (c : call A) : EventMixin :=
  match c with
  | Returns this _ => this
  | Throws this _ => this
  end.

(** A function and the prototype object have no [push]: the call of
    [undefined] throws a [TypeError], after the assignment. *)
Definition on (this : EventMixin) (event : option string)
    (callback context : value) : call unit :=
  if negb (is_function callback) then Returns this tt
  else
    let context := js_or context VNull in
    let this := store this event (events_or_empty this event) in
    match read this event with
    | Some (Array arr) =>
        Returns (set_events this event (arr ++ [Subscription callback context]))
          tt
    | Some (Function _) | Some Prototype | None => Throws this TypeError
    end.

Definition bind := on.

(** [for (x = n - 1; x >= 0; x = x - 1) { if (test(arr[x])) arr.splice(x, 1); }]
    with [n] one more than the current index. *)
Fixpoint off_loop (test : subscription -> bool) (n : nat)
    (arr : list subscription) : completion (list subscription) :=
  match n with
  | O => Return arr
  | S x =>
      match arr !! x with
      | None => Throw TypeError
      | Some sub => off_loop test x (if test sub then splice x 1 arr else arr)
      end
  end.

(** [this.events[event][x].callback === callback] *)
Definition same_callback (callback : value) (sub : subscription) : bool :=
  strict_eq (Event.callback sub) callback.

(** [this.events[event][x].callback === callback &&
     this.events[event][x].context === context] *)
Definition same_callback_and_context (callback context : value)
    (sub : subscription) : bool :=
  strict_eq (Event.callback sub) callback
  && strict_eq (Event.context sub) context.

(** [this.events[event].splice(0, this.events[event].length)]: a
    [TypeError] on [undefined], and on a function or the prototype object,
    which have no [splice]. *)
Definition off_clear (this : EventMixin) (event : option string)
  : completion EventMixin :=
  match read this event with
  | Some (Array arr) =>
      Return (set_events this event (splice 0 (length arr) arr))
  | Some (Function _) | Some Prototype | None => Throw TypeError
  end.

(** The removal loop on [this.events[event]].  On [undefined] the read of
    [length] throws.  On a function the loop starts at [length - 1]: it does
    nothing when the length is 0, and otherwise reads [callback] of the
    function's element [x], which is [undefined], and throws.  On the
    prototype object [length] is [undefined], [x] is [NaN] and the loop
    does nothing. *)
Definition off_pass (test : subscription -> bool) (this : EventMixin)
    (event : option string) : completion EventMixin :=
  match read this event with
  | Some (Array arr) =>
      let* arr' := off_loop test (length arr) arr in
      Return (set_events this event arr')
  | Some (Function O) => Return this
  | Some (Function (S _)) => Throw TypeError
  | Some Prototype => Return this
  | None => Throw TypeError
  end.

(** [off] changes nothing before it throws: its [Throw] leaves the receiver
    as it was. *)
Definition off (this : EventMixin) (event : option string)
    (callback context : value) : completion EventMixin :=
  if strict_eq callback VUndefined && strict_eq context VUndefined
     && event_undefined event
  then Return {| events := ∅ |}
  else if strict_eq callback VUndefined && strict_eq context VUndefined
  then off_clear this event
  else if strict_eq context VUndefined
  then off_pass (same_callback callback) this event
  else off_pass (same_callback_and_context callback context) this event.

Definition unbind := off.

(** [for (x = x0; x < arr.length; x = x + 1) { ... defer(defer.bind(callback, ctx)) }]
    with [n] the number of iterations left and [submitted] the tasks handed
    to [defer] so far.  The body does not change the array: [defer] only
    queues its argument. *)
Fixpoint trigger_loop (arr : list subscription) (x n : nat)
    (submitted : list task) : completion (list task) :=
  match n with
  | O => Return submitted
  | S n' =>
      match arr !! x with
      | None => Throw TypeError
      | Some sub =>
          let callback := Event.callback sub in
          let ctx := Event.context sub in
          trigger_loop arr (x + 1) n'
            (if is_function callback
             then submitted ++ [Bound callback ctx]
             else submitted)
      end
  end.

(** On a function the loop runs from 0 to its [length]: not at all when the
    length is 0, and otherwise it reads [callback] of the function's element
    0, which is [undefined], and throws before any task is submitted.  On
    the prototype object [length] is [undefined] and the loop does not
    run. *)
Definition trigger (this : EventMixin) (event : option string)
  : call (list task) :=
  let this := store this event (events_or_empty this event) in
  match read this event with
  | Some (Array arr) =>
      match trigger_loop arr 0 (length arr) [] with
      | Return submitted => Returns this submitted
      | Throw e => Throws this e
      end
  | Some (Function O) => Returns this []
  | Some (Function (S _)) => Throws this TypeError
  | Some Prototype => Returns this []
  | None => Throws this TypeError
  end.

Definition fire := trigger.

(** *** Notions used by the statements *)

(** The task [trigger] submits for a subscription: its callback bound to
    its recorded context. *)
Definition invocation (sub : subscription) : task :=
  Bound (callback sub) (context sub).

(** What a removal pass keeps of an array. *)
Definition without (test : subscription -> bool) (arr : list subscription)
  : list subscription :=
  List.filter (fun sub => negb (test sub)) arr.

(** What a call of [trigger] handed to the scheduler, or what it threw. *)
Definition submission (c : call (list task)) : completion (list task) :=
  match c with
  | Returns _ submitted => Return submitted
  | Throws _ e => Throw e
  end.

(** Every stored callback is a function, as [on] stores them. *)
Definition well_formed (this : EventMixin) : Prop :=
  forall name arr,
    events this !! name = Some (Array arr) ->
    Forall (fun sub => is_function (callback sub) = true) arr.

(** The states an entity goes through: created empty, then left by calls of
    the three methods, whether they returned or threw. *)
Inductive reachable : EventMixin -> Prop :=
| reachable_create : reachable create
| reachable_on this event callback context :
    reachable this -> reachable (receiver (on this event callback context))
| reachable_off this event callback context this' :
    reachable this ->
    off this event callback context = Return this' ->
    reachable this'
| reachable_trigger this event :
    reachable this -> reachable (receiver (trigger this event)).

End Event.

(** ** The deferred scheduler, [modelo/defer] *)

Module Defer.

(** What the selection reads of [window]: the truthiness of its members;
    and whether the window has [setTimeout], which the timer function calls
    and the selection does not read. *)
Record window_object : Type := Window {
  postMessage : bool;
  addEventListener : bool;
  attachEvent : bool;
  setTimeout : bool
}.

(** What the selection reads of the host: [process], when defined, with the
    truthiness of [process.nextTick], and [window], when defined. *)
Record environment : Type := Environment {
  process : option bool;
  window : option window_object
}.

Inductive registration : Type :=
| AddEventListener
| AttachEvent.

(** The three functions the selection can return. *)
Inductive scheduler : Type :=
| NextTick
| MessageQueue (listener : registration)
| Timeout.

(** [typeof process !== "undefined" && !!process.nextTick] *)
Definition has_nextTick (env : environment) : bool :=
  match process env with
  | Some nextTick => nextTick
  | None => false
  end.

Definition unsupported : exn :=
  Error "Unsupported environment for async events.".

Definition defer (env : environment) : completion scheduler :=
  if has_nextTick env then Return NextTick
  else
    match window env with
    | Some w =>
        if postMessage w then
          if addEventListener w then Return (MessageQueue AddEventListener)
          else if attachEvent w then Return (MessageQueue AttachEvent)
          else Throw TypeError
        else Return Timeout
    | None => Throw unsupported
    end.

(** The host's event loop as the returned functions see it: the tasks given
    to [process.nextTick], the messages posted to the window, the timers,
    the [queue] variable of the message-based function, and the tasks that
    have been called, in call order. *)
Record loop : Type := Loop {
  ticks : list value;
  posted : list string;
  timers : list (value * Z);
  queue : list value;
  called : list value
}.

Definition message : string := "nextTick".

(** A call [defer(fn)] of the selected function.  The host primitives are
    taken by their contract: [process.nextTick] and [setTimeout] queue the
    function they are given, [window.postMessage] queues a message. *)
Definition schedule (s : scheduler) (fn : value) (l : loop) : loop :=
  match s with
  | NextTick =>
      {| ticks := ticks l ++ [fn]; posted := posted l; timers := timers l;
         queue := queue l; called := called l |}
  | MessageQueue _ =>
      {| ticks := ticks l; posted := posted l ++ [message];
         timers := timers l; queue := queue l ++ [fn]; called := called l |}
  | Timeout =>
      {| ticks := ticks l; posted := posted l;
         timers := timers l ++ [(fn, 0%Z)]; queue := queue l;
         called := called l |}
  end.

(** The listener [handle] on a message event, given
    [event.source === window] and [event.data]. *)
Definition handle (from_window : bool) (data : string) (l : loop) : loop :=
  if from_window && String.eqb data message then
    match queue l with
    | fn :: rest =>
        {| ticks := ticks l; posted := posted l; timers := timers l;
           queue := rest; called := called l ++ [fn] |}
    | [] => l
    end
  else l.


End Defer.

(** ** The module loader, the second half of [modelo/defer] *)

Module Loader.

(** The global [module] as the detection reads it: not declared at all,
    [undefined], [null], or a value with the truthiness of its [exports]. *)
Inductive module_global : Type :=
| ModuleUndeclared
| ModuleUndefined
| ModuleNull
| ModuleValue (exports : bool).

(** What the detection reads of the host: [define], when
    [typeof define === "function"], with the truthiness of [define.amd];
    whether [typeof require === "function"]; [module]; and [this], when it
    is not [undefined], with [this.window !== undefined]. *)
Record globals : Type := Globals {
  define : option bool;
  require : bool;
  module : module_global;
  this_window : option bool
}.

Inductive kind : Type :=
| Amd
| Node
| Browser.

(** A thrown exception, or the [ReferenceError] of reading an undeclared
    identifier. *)
Inductive raised : Type :=
| Exception (e : exn)
| ReferenceError.

Inductive outcome (A : Type) : Type :=
| Done (a : A)
| Raised (r : raised).
Arguments Done {A} a.
Arguments Raised {A} r.

(** [typeof define === "function" && !!define.amd] *)
Definition is_amd (g : globals) : bool :=
  match define g with
  | Some amd => amd
  | None => false
  end.

(** [typeof require === "function" && module !== undefined && !!module.exports],
    evaluated left to right. *)
Definition is_node (g : globals) : outcome bool :=
  if require g then
    match module g with
    | ModuleUndeclared => Raised ReferenceError
    | ModuleUndefined => Done false
    | ModuleNull => Raised (Exception TypeError)
    | ModuleValue exports => Done exports
    end
  else Done false.

(** [this.window !== undefined] *)
Definition is_browser (g : globals) : outcome bool :=
  match this_window g with
  | Some window => Done window
  | None => Raised (Exception TypeError)
  end.

(** The [if ... else if ... else if] chain that sets [currentEnvironment];
    [None] when it stays [undefined]. *)
Definition currentEnvironment (g : globals) : outcome (option kind) :=
  if is_amd g then Done (Some Amd)
  else
    match is_node g with
    | Raised r => Raised r
    | Done true => Done (Some Node)
    | Done false =>
        match is_browser g with
        | Raised r => Raised r
        | Done true => Done (Some Browser)
        | Done false => Done None
        end
    end.

Definition unrecognized : exn := Error "Unrecognized environment.".

(** The [switch (currentEnvironment)]: the definition function of the
    environment, named by its kind, or the [default] case. *)
Definition generator (env : option kind) : outcome kind :=
  match env with
  | Some k => Done k
  | None => Raised (Exception unrecognized)
  end.

(** The argument of the outer function: [{ env: ..., def: ... }]. *)
Definition factory (g : globals) : outcome kind :=
  match currentEnvironment g with
  | Done env => generator env
  | Raised r => Raised r
  end.

End Loader.

(** ** The host's side of the message queue *)

Module Host.

(** A message event as [handle] reads it: [event.source === window] and
    [event.data]. *)
Definition message_event : Type := (bool * string)%type.

(** The module's own message, posted by the window to itself. *)
Definition own : message_event := (true, Defer.message).

Definition is_own (e : message_event) : bool :=
  fst e && String.eqb (snd e) Defer.message.

(** The listener called on each event of a list, in order. *)
Definition handle_each (es : list message_event) (l : Defer.loop)
  : Defer.loop :=
  fold_left (fun l e => Defer.handle (fst e) (snd e) l) es l.

(** The calls [defer(fn)] for each function of a list, in order. *)
Definition schedule_each (s : Defer.scheduler) (fns : list value)
    (l : Defer.loop) : Defer.loop :=
  fold_left (fun l fn => Defer.schedule s fn l) fns l.

End Host.

(** ** Subscriptions as [on] stores them *)

(** The callback is a function and the context is [null] or truthy. *)
Definition stored_by_on (sub : Event.subscription) : Prop :=
  is_function (Event.callback sub) = true
  /\ (Event.context sub = VNull \/ truthy (Event.context sub) = true).

Definition as_stored (this : Event.EventMixin) : Prop :=
  forall (name : string) (arr : list Event.subscription),
    Event.events this !! name = Some (Event.Array arr) ->
    Forall stored_by_on arr.

(** ** Hosts with no scheduling mechanism *)


(** * Properties *)

Import Event.

(** ** The two loops *)

Section Loops.

Context (test : subscription -> bool).

Lemma without_app (l1 l2 : list subscription) :
  without test (l1 ++ l2) = without test l1 ++ without test l2.
Proof. unfold without. apply List.filter_app. Qed.

Lemma splice_one_at (arr : list subscription) (x : nat) :
  x < length arr ->
  take x (splice x 1 arr) = take x arr
  /\ drop x (splice x 1 arr) = drop (S x) arr.
Proof.
  intros Hx. unfold splice.
  assert (Hlen : length (take x arr) = x) by (rewrite length_take; lia).
  split.
  - rewrite take_app_le by lia. rewrite take_ge by lia. reflexivity.
  - rewrite drop_app_ge by lia. rewrite Hlen, Nat.sub_diag, Nat.add_1_r.
    reflexivity.
Qed.

Lemma splice_one_length (arr : list subscription) (x : nat) :
  x < length arr -> length (splice x 1 arr) = length arr - 1.
Proof.
  intros Hx. unfold splice.
  rewrite length_app, length_take, length_drop. lia.
Qed.

(** The backward pass from index [n - 1] removes the matches among the first
    [n] entries and leaves the rest of the array as it is: no index is read
    out of range, none is skipped. *)
Lemma off_loop_without (n : nat) : forall arr : list subscription,
  n <= length arr ->
  off_loop test n arr = Return (without test (take n arr) ++ drop n arr).
Proof.
  induction n as [|x IH]; intros arr Hn; simpl.
  - rewrite drop_0. reflexivity.
  - destruct (arr !! x) as [sub|] eqn:Hsub.
    2:{ apply lookup_ge_None in Hsub. lia. }
    rewrite (take_S_r _ _ _ Hsub), without_app.
    destruct (test sub) eqn:Htest.
    + destruct (splice_one_at arr x) as [Htake Hdrop]; [lia|].
      rewrite IH by (rewrite splice_one_length; lia).
      rewrite Htake, Hdrop. unfold without at 3. simpl. rewrite Htest. simpl.
      rewrite app_nil_r. reflexivity.
    + rewrite IH by lia. rewrite (drop_S _ _ _ Hsub).
      unfold without at 3. simpl. rewrite Htest. simpl.
      rewrite <- app_assoc. reflexivity.
Qed.

Lemma off_loop_all (arr : list subscription) :
  off_loop test (length arr) arr = Return (without test arr).
Proof.
  rewrite off_loop_without by lia.
  rewrite take_ge, drop_ge by lia. rewrite app_nil_r. reflexivity.
Qed.

Lemma without_idempotent (arr : list subscription) :
  without test (without test arr) = without test arr.
Proof.
  unfold without. induction arr as [|sub arr IH]; simpl; [reflexivity|].
  destruct (test sub) eqn:Htest; simpl; [exact IH|].
  rewrite Htest. simpl. f_equal. exact IH.
Qed.

Lemma without_In (arr : list subscription) (sub : subscription) :
  In sub (without test arr) <-> In sub arr /\ test sub = false.
Proof.
  unfold without. rewrite List.filter_In, negb_true_iff. reflexivity.
Qed.

End Loops.

(** The tasks of the callbacks that pass [trigger]'s [typeof] test. *)
Lemma trigger_loop_submits (arr : list subscription) :
  forall (n x : nat) (submitted : list task),
  x + n = length arr ->
  trigger_loop arr x n submitted =
  Return (submitted ++
          map invocation
            (List.filter (fun sub => is_function (callback sub)) (drop x arr))).
Proof.
  induction n as [|n IH]; intros x submitted Hlen; simpl.
  - rewrite drop_ge by lia. simpl. rewrite app_nil_r. reflexivity.
  - destruct (arr !! x) as [sub|] eqn:Hsub.
    2:{ apply lookup_ge_None in Hsub. lia. }
    rewrite IH by lia. rewrite (drop_S _ _ _ Hsub), Nat.add_1_r. simpl.
    destruct (is_function (callback sub)); simpl; [|reflexivity].
    rewrite <- app_assoc. reflexivity.
Qed.

Lemma filter_functions (arr : list subscription) :
  Forall (fun sub => is_function (callback sub) = true) arr ->
  List.filter (fun sub => is_function (callback sub)) arr = arr.
Proof.
  induction 1 as [|sub arr Hsub _ IH]; simpl; [reflexivity|].
  rewrite Hsub, IH. reflexivity.
Qed.

(** ** Values *)

Lemma strict_eq_undefined (v : value) :
  strict_eq v VUndefined = false <-> v <> VUndefined.
Proof. destruct v; simpl; split; congruence. Qed.

Lemma strict_eq_function (f : value) :
  is_function f = true -> strict_eq f f = true.
Proof. destruct f; simpl; try discriminate. intros _. apply Nat.eqb_refl. Qed.

Lemma function_defined (f : value) :
  is_function f = true -> f <> VUndefined.
Proof. destruct f; simpl; congruence. Qed.

(** A falsy value other than [null] and [undefined] is [===] to neither. *)
Lemma strict_eq_null_falsy (c : value) :
  c <> VNull -> strict_eq VNull c = false.
Proof. destruct c; simpl; congruence. Qed.

(** ** The receiver and its map *)

Lemma mixin_eq (this this' : EventMixin) :
  events this = events this' -> this = this'.
Proof. destruct this, this'; simpl; intros ->; reflexivity. Qed.

Lemma set_events_eq this event arr :
  events (set_events this event arr) !! key event = Some (Array arr).
Proof. simpl. apply lookup_insert_eq. Qed.

Lemma set_events_ne this event arr (name : string) :
  name <> key event ->
  events (set_events this event arr) !! name = events this !! name.
Proof. intros Hne. simpl. apply lookup_insert_ne. congruence. Qed.

Lemma set_events_twice this event arr arr' :
  set_events (set_events this event arr) event arr' = set_events this event arr'.
Proof. apply mixin_eq. simpl. apply insert_insert_eq. Qed.

Lemma set_events_same this event arr :
  events this !! key event = Some (Array arr) ->
  set_events this event arr = this.
Proof. intros H. apply mixin_eq. simpl. apply insert_id, H. Qed.

(** No array is inherited. *)
Lemma object_prototype_no_array (name : string) arr :
  object_prototype name <> Some (Array arr).
Proof.
  unfold object_prototype.
  destruct (List.find _ prototype_members) as [member|] eqn:Hfind;
    [|discriminate].
  apply List.find_some in Hfind as [Hin _]. simpl in Hin.
  repeat (destruct Hin as [<-|Hin]; [discriminate|]). contradiction.
Qed.

Lemma read_own this event e :
  events this !! key event = Some e -> read this event = Some e.
Proof. unfold read. intros ->. reflexivity. Qed.

Lemma read_array this event arr :
  read this event = Some (Array arr) <->
  events this !! key event = Some (Array arr).
Proof.
  split; [|apply read_own]. unfold read.
  destruct (events this !! key event); [auto|].
  intros H. apply object_prototype_no_array in H. contradiction.
Qed.

Lemma read_set_events this event arr :
  read (set_events this event arr) event = Some (Array arr).
Proof. apply read_own, set_events_eq. Qed.

Lemma read_set_events_ne this event event' arr :
  key event' <> key event ->
  read (set_events this event arr) event' = read this event'.
Proof.
  intros Hne. unfold read. rewrite set_events_ne by exact Hne. reflexivity.
Qed.

(** [this.events[event] || []] is an array exactly when the event has an
    array of its own, or has no property of its own and names no member of
    [Object.prototype]. *)
Lemma events_or_empty_array this event arr :
  events_or_empty this event = Array arr <->
  events this !! key event = Some (Array arr)
  \/ (events this !! key event = None
      /\ object_prototype (key event) = None /\ arr = []).
Proof.
  unfold events_or_empty, read.
  destruct (events this !! key event) as [e|] eqn:Hown.
  - split; [intros ->; auto|]. intros [H|[H _]]; congruence.
  - destruct (object_prototype (key event)) as [e|] eqn:Hproto.
    + split.
      * intros ->. apply object_prototype_no_array in Hproto. contradiction.
      * intros [H|(_ & H & _)]; discriminate.
    + split; [intros H; injection H as <-; auto|].
      intros [H|(_ & _ & ->)]; [discriminate|reflexivity].
Qed.

Lemma events_or_empty_present this event arr :
  events this !! key event = Some (Array arr) ->
  events_or_empty this event = Array arr.
Proof. intros H. apply events_or_empty_array. auto. Qed.

Lemma events_or_empty_set this event arr :
  events_or_empty (set_events this event arr) event = Array arr.
Proof. apply events_or_empty_present, set_events_eq. Qed.

Lemma events_or_empty_set_ne this event event' arr :
  key event' <> key event ->
  events_or_empty (set_events this event arr) event'
  = events_or_empty this event'.
Proof.
  intros Hne. unfold events_or_empty.
  rewrite read_set_events_ne by exact Hne. reflexivity.
Qed.

(** The assignment [this.events[event] = this.events[event] || []] when the
    right-hand side is an array: the array becomes, or stays, the own
    property. *)
Lemma store_array this event arr :
  events_or_empty this event = Array arr ->
  store this event (Array arr) = set_events this event arr.
Proof.
  intros Harr. unfold store.
  destruct (String.eqb (key event) "__proto__") eqn:Hkey; [|reflexivity].
  apply String.eqb_eq in Hkey.
  apply events_or_empty_array in Harr as [Hown|(_ & Hproto & _)].
  - symmetry. apply set_events_same, Hown.
  - rewrite Hkey in Hproto. discriminate.
Qed.

(** The assignment changes no other own property, and none that exists. *)
Lemma store_ne this event e (name : string) :
  name <> key event ->
  events (store this event e) !! name = events this !! name.
Proof.
  intros Hne. unfold store.
  destruct (String.eqb (key event) "__proto__"); [reflexivity|].
  simpl. apply lookup_insert_ne. congruence.
Qed.

Lemma store_own this event (name : string) e :
  events this !! name = Some e ->
  events (store this event (events_or_empty this event)) !! name = Some e.
Proof.
  intros Hown. destruct (decide (name = key event)) as [->|Hne].
  - unfold store.
    destruct (String.eqb (key event) "__proto__"); [exact Hown|].
    simpl. rewrite lookup_insert_eq. unfold events_or_empty.
    rewrite (read_own _ _ _ Hown). reflexivity.
  - rewrite store_ne by exact Hne. exact Hown.
Qed.

(** After the assignment the event reads as what was assigned. *)
Lemma read_store this event :
  read (store this event (events_or_empty this event)) event
  = Some (events_or_empty this event).
Proof.
  unfold store.
  destruct (String.eqb (key event) "__proto__") eqn:Hkey.
  - unfold events_or_empty.
    destruct (read this event) as [e|] eqn:Hread; [reflexivity|].
    apply String.eqb_eq in Hkey. unfold read in Hread. rewrite Hkey in Hread.
    destruct (events this !! "__proto__"); discriminate.
  - apply read_own. simpl. apply lookup_insert_eq.
Qed.

(** The only arrays among the own properties after the assignment are those
    that were there, and the empty array under the event. *)
Lemma store_array_inv this event (name : string) arr :
  events (store this event (events_or_empty this event)) !! name
  = Some (Array arr) ->
  events this !! name = Some (Array arr)
  \/ (name = key event /\ arr = [] /\ events this !! name = None).
Proof.
  intros Hstored. destruct (decide (name = key event)) as [->|Hne].
  - unfold store in Hstored.
    destruct (String.eqb (key event) "__proto__"); [auto|].
    simpl in Hstored. rewrite lookup_insert_eq in Hstored.
    injection Hstored as Harr.
    apply events_or_empty_array in Harr as [H|(H & _ & ->)]; auto.
  - rewrite store_ne in Hstored by exact Hne. auto.
Qed.

(** ** The methods, branch by branch *)

Lemma on_ignores this event v c :
  is_function v = false -> on this event v c = Returns this tt.
Proof. intros Hv. unfold on. rewrite Hv. reflexivity. Qed.

Lemma on_array this event f c arr :
  is_function f = true ->
  events_or_empty this event = Array arr ->
  on this event f c =
  Returns (set_events this event (arr ++ [Subscription f (js_or c VNull)])) tt.
Proof.
  intros Hf Harr. unfold on. rewrite Hf, Harr. simpl negb. cbv iota.
  rewrite (store_array _ _ _ Harr), read_set_events, set_events_twice.
  reflexivity.
Qed.

(** Whether it returns or throws, [on] with a function leaves the receiver
    with the assignment done and, on an array, the subscription pushed. *)
Lemma receiver_on this event f c :
  is_function f = true ->
  receiver (on this event f c) =
  match events_or_empty this event with
  | Array arr =>
      set_events this event (arr ++ [Subscription f (js_or c VNull)])
  | e => store this event e
  end.
Proof.
  intros Hf. destruct (events_or_empty this event) as [arr|n|] eqn:Hentry.
  - rewrite (on_array _ _ _ _ _ Hf Hentry). reflexivity.
  - unfold on. rewrite Hf, read_store, Hentry. reflexivity.
  - unfold on. rewrite Hf, read_store, Hentry. reflexivity.
Qed.

Lemma off_everything this :
  off this None VUndefined VUndefined = Return create.
Proof. reflexivity. Qed.

Lemma off_event this (name : string) arr :
  events this !! name = Some (Array arr) ->
  off this (Some name) VUndefined VUndefined =
  Return (set_events this (Some name) []).
Proof.
  intros Harr. unfold off, off_clear. simpl.
  rewrite (read_own this (Some name) _ Harr).
  unfold splice. rewrite drop_ge by lia. reflexivity.
Qed.

Lemma off_pass_array test this event arr :
  events this !! key event = Some (Array arr) ->
  off_pass test this event = Return (set_events this event (without test arr)).
Proof.
  intros Harr. unfold off_pass. rewrite (read_own _ _ _ Harr).
  rewrite off_loop_all. reflexivity.
Qed.

Lemma off_callback this event f arr :
  f <> VUndefined ->
  events this !! key event = Some (Array arr) ->
  off this event f VUndefined =
  Return (set_events this event (without (same_callback f) arr)).
Proof.
  intros Hf Harr. apply strict_eq_undefined in Hf. unfold off.
  rewrite Hf. simpl. apply off_pass_array, Harr.
Qed.

Lemma off_callback_context this event f c arr :
  c <> VUndefined ->
  events this !! key event = Some (Array arr) ->
  off this event f c =
  Return (set_events this event
            (without (same_callback_and_context f c) arr)).
Proof.
  intros Hc Harr. apply strict_eq_undefined in Hc. unfold off.
  rewrite Hc, !andb_false_r. simpl. apply off_pass_array, Harr.
Qed.

(** Every branch of [off] but the first reads a member of
    [this.events[event]]. *)
Lemma off_absent this event f c :
  read this event = None ->
  strict_eq f VUndefined && strict_eq c VUndefined && event_undefined event
  = false ->
  off this event f c = Throw TypeError.
Proof.
  intros Hnone Hargs. unfold off, off_clear, off_pass.
  rewrite Hargs, Hnone.
  destruct (strict_eq f VUndefined && strict_eq c VUndefined);
    [reflexivity|].
  destruct (strict_eq c VUndefined); reflexivity.
Qed.

(** What a removal pass that returns has done. *)
Lemma off_pass_returned test this event this' :
  off_pass test this event = Return this' ->
  (exists arr,
     events this !! key event = Some (Array arr)
     /\ this' = set_events this event (without test arr))
  \/ (this' = this
      /\ (read this event = Some (Function 0)
          \/ read this event = Some Prototype)).
Proof.
  unfold off_pass. destruct (read this event) as [[arr|[|n]|]|] eqn:Hread;
    try discriminate.
  - apply read_array in Hread. rewrite off_loop_all. simpl.
    intros H. injection H as <-. left. eauto.
  - intros H. injection H as <-. auto.
  - intros H. injection H as <-. auto.
Qed.

(** What a call of [off] that returns has done. *)
Lemma off_returned this event f c this' :
  off this event f c = Return this' ->
  this' = create
  \/ (exists arr test,
        events this !! key event = Some (Array arr)
        /\ this' = set_events this event (without test arr))
  \/ this' = this.
Proof.
  unfold off.
  destruct (strict_eq f VUndefined && strict_eq c VUndefined
            && event_undefined event).
  { intros H. injection H as <-. left. reflexivity. }
  destruct (strict_eq f VUndefined && strict_eq c VUndefined).
  { unfold off_clear.
    destruct (read this event) as [[arr| |]|] eqn:Hread; try discriminate.
    apply read_array in Hread. intros H. injection H as <-.
    right. left. exists arr, (fun _ => true). split; [exact Hread|].
    unfold splice. rewrite drop_ge by lia. f_equal.
    unfold without. clear. induction arr; simpl; auto. }
  destruct (strict_eq c VUndefined); intros H;
    apply off_pass_returned in H as [(arr & Harr & ->)|[-> _]];
    solve [right; left; eauto | right; right; reflexivity].
Qed.

Lemma without_everything (arr : list subscription) :
  without (fun _ => true) arr = [].
Proof. unfold without. induction arr; simpl; auto. Qed.

(** What a call of [off] with an event name that returns has done. *)
Lemma off_named_returned this (name : string) f c this' :
  off this (Some name) f c = Return this' ->
  (exists arr test,
     events this !! name = Some (Array arr)
     /\ this' = set_events this (Some name) (without test arr))
  \/ this' = this.
Proof.
  unfold off. rewrite andb_false_r.
  destruct (strict_eq f VUndefined && strict_eq c VUndefined).
  { unfold off_clear.
    destruct (read this (Some name)) as [[arr| |]|] eqn:Hread;
      try discriminate.
    apply read_array in Hread. intros H. injection H as <-.
    left. exists arr, (fun _ => true). split; [exact Hread|].
    unfold splice. rewrite drop_ge by lia. rewrite without_everything.
    reflexivity. }
  destruct (strict_eq c VUndefined); intros H;
    apply off_pass_returned in H as [(arr & Harr & ->)|[-> _]];
    solve [left; eauto | right; reflexivity].
Qed.

Lemma off_pass_again test this event this' :
  off_pass test this event = Return this' ->
  off_pass test this' event = Return this'.
Proof.
  intros Hoff.
  destruct (off_pass_returned _ _ _ _ Hoff) as [(arr & Harr & ->)|[-> _]];
    [|exact Hoff].
  rewrite (off_pass_array _ _ _ _ (set_events_eq this event _)).
  rewrite set_events_twice, without_idempotent. reflexivity.
Qed.

(** A second [off] with the arguments of one that returned changes
    nothing. *)
Lemma off_again this event f c this' :
  off this event f c = Return this' ->
  off this' event f c = Return this'.
Proof.
  unfold off.
  destruct (strict_eq f VUndefined && strict_eq c VUndefined
            && event_undefined event).
  { intros H. injection H as <-. reflexivity. }
  destruct (strict_eq f VUndefined && strict_eq c VUndefined).
  { unfold off_clear.
    destruct (read this event) as [[arr| |]|] eqn:Hread; try discriminate.
    intros H. injection H as <-. rewrite read_set_events.
    unfold splice. rewrite !drop_ge by (simpl; lia). simpl.
    rewrite set_events_twice. reflexivity. }
  destruct (strict_eq c VUndefined); apply off_pass_again.
Qed.

(** [trigger] on each kind of [this.events[event] || []]. *)
Lemma trigger_cases this event :
  trigger this event =
  match events_or_empty this event with
  | Array arr =>
      Returns (set_events this event arr)
        (map invocation
           (List.filter (fun sub => is_function (callback sub)) arr))
  | Function O =>
      Returns (store this event (events_or_empty this event)) []
  | Function (S _) =>
      Throws (store this event (events_or_empty this event)) TypeError
  | Prototype =>
      Returns (store this event (events_or_empty this event)) []
  end.
Proof.
  unfold trigger. rewrite read_store.
  destruct (events_or_empty this event) as [arr|[|n]|] eqn:Hentry;
    try reflexivity.
  rewrite trigger_loop_submits by lia. simpl. rewrite drop_0.
  rewrite (store_array _ _ _ Hentry). reflexivity.
Qed.

Lemma trigger_array this event arr :
  events_or_empty this event = Array arr ->
  trigger this event =
  Returns (set_events this event arr)
    (map invocation (List.filter (fun sub => is_function (callback sub)) arr)).
Proof. intros Harr. rewrite trigger_cases, Harr. reflexivity. Qed.

Lemma receiver_trigger this event :
  receiver (trigger this event)
  = store this event (events_or_empty this event).
Proof.
  rewrite trigger_cases.
  destruct (events_or_empty this event) as [arr|[|n]|] eqn:Hentry;
    try reflexivity.
  simpl. symmetry. apply store_array, Hentry.
Qed.

(** ** What the methods keep of the stored arrays *)

Section Stored.

Context (P : subscription -> Prop).

Lemma stored_create (name : string) arr :
  events create !! name = Some (Array arr) -> Forall P arr.
Proof. simpl. rewrite lookup_empty. discriminate. Qed.

Lemma stored_set_events this event arr :
  (forall (name : string) arr0,
     events this !! name = Some (Array arr0) -> Forall P arr0) ->
  Forall P arr ->
  forall (name : string) arr0,
    events (set_events this event arr) !! name = Some (Array arr0) ->
    Forall P arr0.
Proof.
  intros Hstored Harr name arr0 Hlookup.
  destruct (decide (name = key event)) as [->|Hne].
  - rewrite set_events_eq in Hlookup. congruence.
  - rewrite set_events_ne in Hlookup by exact Hne. eapply Hstored, Hlookup.
Qed.

Lemma stored_store this event :
  (forall (name : string) arr0,
     events this !! name = Some (Array arr0) -> Forall P arr0) ->
  forall (name : string) arr0,
    events (store this event (events_or_empty this event)) !! name
    = Some (Array arr0) ->
    Forall P arr0.
Proof.
  intros Hstored name arr0 Hlookup.
  apply store_array_inv in Hlookup as [Hown|(_ & -> & _)].
  - eapply Hstored, Hown.
  - constructor.
Qed.

Lemma stored_events_or_empty this event arr :
  (forall (name : string) arr0,
     events this !! name = Some (Array arr0) -> Forall P arr0) ->
  events_or_empty this event = Array arr ->
  Forall P arr.
Proof.
  intros Hstored Harr.
  apply events_or_empty_array in Harr as [Hown|(_ & _ & ->)].
  - eapply Hstored, Hown.
  - constructor.
Qed.

Lemma Forall_without test arr :
  Forall P arr -> Forall P (without test arr).
Proof.
  rewrite !List.Forall_forall. intros Harr sub Hin.
  apply without_In in Hin. apply Harr, Hin.
Qed.

Lemma stored_on this event f c :
  (is_function f = true -> P (Subscription f (js_or c VNull))) ->
  (forall (name : string) arr0,
     events this !! name = Some (Array arr0) -> Forall P arr0) ->
  forall (name : string) arr0,
    events (receiver (on this event f c)) !! name = Some (Array arr0) ->
    Forall P arr0.
Proof.
  intros Hnew Hstored. destruct (is_function f) eqn:Hf.
  - rewrite receiver_on by exact Hf.
    destruct (events_or_empty this event) as [arr|n|] eqn:Hentry.
    + apply stored_set_events; [exact Hstored|].
      apply Forall_app. split.
      * eapply stored_events_or_empty; [exact Hstored|exact Hentry].
      * constructor; [apply Hnew; reflexivity|constructor].
    + rewrite <- Hentry. apply stored_store, Hstored.
    + rewrite <- Hentry. apply stored_store, Hstored.
  - rewrite on_ignores by exact Hf. exact Hstored.
Qed.

Lemma stored_off this event f c this' :
  (forall (name : string) arr0,
     events this !! name = Some (Array arr0) -> Forall P arr0) ->
  off this event f c = Return this' ->
  forall (name : string) arr0,
    events this' !! name = Some (Array arr0) -> Forall P arr0.
Proof.
  intros Hstored Hoff.
  destruct (off_returned _ _ _ _ _ Hoff)
    as [->|[(arr & test & Harr & ->)| ->]].
  - apply stored_create.
  - apply stored_set_events; [exact Hstored|].
    apply Forall_without. eapply Hstored, Harr.
  - exact Hstored.
Qed.

Lemma stored_trigger this event :
  (forall (name : string) arr0,
     events this !! name = Some (Array arr0) -> Forall P arr0) ->
  forall (name : string) arr0,
    events (receiver (trigger this event)) !! name = Some (Array arr0) ->
    Forall P arr0.
Proof. intros Hstored. rewrite receiver_trigger. apply stored_store, Hstored. Qed.

End Stored.

(** ** Stored callbacks are functions *)

Lemma well_formed_create : well_formed create.
Proof. intros name arr. apply stored_create. Qed.

Lemma well_formed_set_events this event arr :
  well_formed this ->
  Forall (fun sub => is_function (callback sub) = true) arr ->
  well_formed (set_events this event arr).
Proof. intros Hwf Harr. exact (stored_set_events _ _ _ _ Hwf Harr). Qed.

Lemma well_formed_on this event f c :
  well_formed this -> well_formed (receiver (on this event f c)).
Proof.
  intros Hwf. refine (stored_on _ _ _ _ _ _ Hwf). intros Hf. exact Hf.
Qed.

Lemma well_formed_off this event f c this' :
  well_formed this -> off this event f c = Return this' -> well_formed this'.
Proof. intros Hwf Hoff. exact (stored_off _ _ _ _ _ _ Hwf Hoff). Qed.

Lemma well_formed_trigger this event :
  well_formed this -> well_formed (receiver (trigger this event)).
Proof. intros Hwf. exact (stored_trigger _ _ _ Hwf). Qed.

Lemma reachable_well_formed this : reachable this -> well_formed this.
Proof.
  induction 1 as [|this event f c _ IH|this event f c this' _ IH Hoff
                  |this event _ IH].
  - apply well_formed_create.
  - apply well_formed_on, IH.
  - eapply well_formed_off; [exact IH|exact Hoff].
  - apply well_formed_trigger, IH.
Qed.

(** ** Removal from an event that was never subscribed *)

(** C1. On a freshly created entity, where "ready" has no entry in
    [this.events], each of [off("ready")], [off("ready", f)] and
    [off("ready", f, ctx)] throws a [TypeError] instead of returning the
    receiver: [off] reads a member of [this.events[event]] without the
    [|| []] guard that [on] and [trigger] apply. *)
Theorem off_never_subscribed_throws :
  off create (Some "ready") VUndefined VUndefined = Throw TypeError
  /\ off create (Some "ready") (VFun 1) VUndefined = Throw TypeError
  /\ off create (Some "ready") (VFun 1) (VObj 1) = Throw TypeError.
Proof.
  repeat split; apply off_absent; reflexivity.
Qed.

(** C7. With "ready" subscribed and "done" never subscribed, the first
    [off("done", f)] already throws a [TypeError], and so does the pair of
    calls: removal from an absent entry is not a no-op, by the same missing
    guard. *)
Theorem off_twice_never_subscribed_throws :
  off (receiver (on create (Some "ready") (VFun 1) VUndefined)) (Some "done")
    (VFun 1) VUndefined = Throw TypeError
  /\ (let* this' := off (receiver
                           (on create (Some "ready") (VFun 1) VUndefined))
                      (Some "done") (VFun 1) VUndefined in
      off this' (Some "done") (VFun 1) VUndefined) = Throw TypeError.
Proof.
  assert (H : off (receiver (on create (Some "ready") (VFun 1) VUndefined))
                (Some "done") (VFun 1) VUndefined = Throw TypeError).
  { apply off_absent; reflexivity. }
  split; [exact H|]. rewrite H. reflexivity.
Qed.

(** ** Subscribing *)

(** C6. When the callback argument is not a function, [on] stores nothing
    and returns the receiver as it was, keys of the map included. *)
Theorem on_not_a_function_is_noop this event v c :
  is_function v = false ->
  on this event v c = Returns this tt
  /\ dom (events (receiver (on this event v c))) = dom (events this).
Proof.
  intros Hv. unfold on. rewrite Hv. simpl. split; reflexivity.
Qed.

Lemma on_not_a_function_is_noop_witness :
  is_function (VStr "handler") = false
  /\ on create (Some "ready") (VStr "handler") (VObj 1) = Returns create tt
  /\ dom (events (receiver
                    (on create (Some "ready") (VStr "handler") (VObj 1))))
     = dom (events create).
Proof.
  split; [reflexivity|].
  apply (on_not_a_function_is_noop create (Some "ready") (VStr "handler")
           (VObj 1)).
  reflexivity.
Defined.

(** ** Triggering *)

(** C3, as the code has it.  Triggering an event that has no entry and
    does not name a member of [Object.prototype] returns the receiver,
    throws nothing, submits no task, and leaves the event bound to the
    empty array. *)
Theorem trigger_never_subscribed this event :
  events this !! key event = None ->
  object_prototype (key event) = None ->
  exists this',
    trigger this event = Returns this' []
    /\ events this' !! key event = Some (Array []).
Proof.
  intros Hnone Hplain. exists (set_events this event []).
  rewrite (trigger_array this event []).
  - split; [reflexivity|apply set_events_eq].
  - apply events_or_empty_array. auto.
Qed.

Lemma trigger_never_subscribed_witness :
  events (receiver (on create (Some "ready") (VFun 1) VNull))
    !! key (Some "neverSubscribed") = None
  /\ object_prototype (key (Some "neverSubscribed")) = None
  /\ exists this',
       trigger (receiver (on create (Some "ready") (VFun 1) VNull))
         (Some "neverSubscribed") = Returns this' []
       /\ events this' !! key (Some "neverSubscribed") = Some (Array []).
Proof.
  split; [reflexivity|]. split; [reflexivity|].
  apply (trigger_never_subscribed
           (receiver (on create (Some "ready") (VFun 1) VNull))
           (Some "neverSubscribed")); reflexivity.
Defined.

(** C3 fails on names inherited from [Object.prototype]: on a new entity,
    where nothing was subscribed, [trigger("toString")] returns but leaves
    the event bound to the inherited function, not to an empty array, and
    [trigger("hasOwnProperty")] throws a [TypeError]. *)
Lemma trigger_never_subscribed_inherited :
  events create !! key (Some "toString") = None
  /\ (exists this',
        trigger create (Some "toString") = Returns this' []
        /\ events this' !! "toString" = Some (Function 0)
        /\ events this' !! "toString" <> Some (Array []))
  /\ events create !! key (Some "hasOwnProperty") = None
  /\ exists this',
       trigger create (Some "hasOwnProperty") = Throws this' TypeError.
Proof.
  split; [reflexivity|]. split.
  - eexists. split; [reflexivity|]. split; [reflexivity|discriminate].
  - split; [reflexivity|]. eexists. reflexivity.
Qed.

(** C10, as the code has it.  When [this.events[event] || []] is an array
    (the event has an array of its own, or has no entry and names no member
    of [Object.prototype]), [trigger] returns, and the map it leaves is the
    map it found, with the event bound to the empty array when it had no
    entry: every entry that was stored, the event's own included, is stored
    unchanged afterwards. *)
Theorem trigger_frame this event s :
  events_or_empty this event = Array s ->
  exists this' submitted,
    trigger this event = Returns this' submitted
    /\ events this' =
       match events this !! key event with
       | Some _ => events this
       | None => <[key event := Array []]> (events this)
       end
    /\ forall (name : string) (e : entry),
         events this !! name = Some e -> events this' !! name = Some e.
Proof.
  intros Hs. eexists _, _. rewrite (trigger_array _ _ _ Hs).
  split; [reflexivity|]. simpl.
  apply events_or_empty_array in Hs as [Hown|(Hnone & _ & ->)].
  - rewrite Hown, (insert_id _ _ _ Hown). auto.
  - rewrite Hnone. split; [reflexivity|]. intros name e He.
    rewrite lookup_insert_ne; [exact He|]. congruence.
Qed.

Lemma trigger_frame_witness :
  events_or_empty (receiver (on create (Some "ready") (VFun 1) VNull))
    (Some "done") = Array []
  /\ exists this' submitted,
       trigger (receiver (on create (Some "ready") (VFun 1) VNull))
         (Some "done") = Returns this' submitted
       /\ events this' =
          match events (receiver (on create (Some "ready") (VFun 1) VNull))
                  !! key (Some "done") with
          | Some _ =>
              events (receiver (on create (Some "ready") (VFun 1) VNull))
          | None =>
              <[key (Some "done") := Array []]>
                (events (receiver (on create (Some "ready") (VFun 1) VNull)))
          end
       /\ forall (name : string) (e : entry),
            events (receiver (on create (Some "ready") (VFun 1) VNull))
              !! name = Some e ->
            events this' !! name = Some e.
Proof.
  split; [reflexivity|].
  apply (trigger_frame (receiver (on create (Some "ready") (VFun 1) VNull))
           (Some "done") []).
  reflexivity.
Defined.

(** C10 fails on names inherited from [Object.prototype]: on a new entity
    [trigger("valueOf")] binds the event to the inherited function instead
    of an empty array, and [trigger("isPrototypeOf")] does the same and
    then throws a [TypeError] instead of returning. *)
Lemma trigger_frame_inherited :
  events create !! key (Some "valueOf") = None
  /\ trigger create (Some "valueOf")
     = Returns {| events := <["valueOf" := Function 0]> ∅ |} []
  /\ <["valueOf" := Function 0]> (events create)
     <> <["valueOf" := Array []]> (events create)
  /\ trigger create (Some "isPrototypeOf")
     = Throws {| events := <["isPrototypeOf" := Function 1]> ∅ |} TypeError.
Proof.
  split; [reflexivity|]. split; [reflexivity|]. split; [|reflexivity].
  intros H. apply (f_equal (fun m => m !! "valueOf")) in H.
  rewrite !lookup_insert_eq in H. discriminate.
Qed.

(** C2, as the code has it.  In a state whose stored callbacks are
    functions, and for an event for which [this.events[event] || []] is an
    array [s] (the event has the array [s] of its own, or has no entry,
    names no member of [Object.prototype], and [s] is empty), [trigger]
    submits to the scheduler one task per subscription of [s], the callback
    bound to its recorded context, in the order of the array; after the
    same callback and context are registered twice more, the two further
    tasks are submitted, last. *)
Theorem trigger_submits_each_subscription this event s :
  well_formed this ->
  events_or_empty this event = Array s ->
  trigger this event = Returns (set_events this event s) (map invocation s)
  /\ forall f c,
       is_function f = true ->
       exists this1 this2 this3,
         on this event f c = Returns this1 tt
         /\ on this1 event f c = Returns this2 tt
         /\ trigger this2 event =
            Returns this3
              (map invocation s
               ++ [Bound f (js_or c VNull); Bound f (js_or c VNull)]).
Proof.
  intros Hwf Hs.
  assert (Hfun : Forall (fun sub => is_function (callback sub) = true) s).
  { eapply stored_events_or_empty; [exact Hwf|exact Hs]. }
  split.
  - rewrite (trigger_array _ _ _ Hs), (filter_functions _ Hfun).
    reflexivity.
  - intros f c Hf. eexists _, _, _.
    split; [apply (on_array _ _ _ _ _ Hf Hs)|].
    split; [apply (on_array _ _ _ _ _ Hf (events_or_empty_set _ _ _))|].
    rewrite set_events_twice.
    rewrite (trigger_array _ _ _ (events_or_empty_set _ _ _)).
    rewrite filter_functions.
    + f_equal. rewrite !map_app, <- app_assoc. reflexivity.
    + rewrite !Forall_app. repeat split; [exact Hfun| |];
        (constructor; [exact Hf|constructor]).
Qed.

Lemma trigger_submits_each_subscription_witness :
  well_formed (set_events create (Some "ready")
                 [Subscription (VFun 1) (VObj 1); Subscription (VFun 2) VNull])
  /\ events_or_empty
       (set_events create (Some "ready")
          [Subscription (VFun 1) (VObj 1); Subscription (VFun 2) VNull])
       (Some "ready")
     = Array [Subscription (VFun 1) (VObj 1); Subscription (VFun 2) VNull]
  /\ trigger (set_events create (Some "ready")
                [Subscription (VFun 1) (VObj 1); Subscription (VFun 2) VNull])
       (Some "ready") =
     Returns (set_events
                (set_events create (Some "ready")
                   [Subscription (VFun 1) (VObj 1);
                    Subscription (VFun 2) VNull]) (Some "ready")
                [Subscription (VFun 1) (VObj 1); Subscription (VFun 2) VNull])
       (map invocation
          [Subscription (VFun 1) (VObj 1); Subscription (VFun 2) VNull])
  /\ forall f c,
       is_function f = true ->
       exists this1 this2 this3,
         on (set_events create (Some "ready")
               [Subscription (VFun 1) (VObj 1); Subscription (VFun 2) VNull])
           (Some "ready") f c = Returns this1 tt
         /\ on this1 (Some "ready") f c = Returns this2 tt
         /\ trigger this2 (Some "ready") =
            Returns this3
              (map invocation
                 [Subscription (VFun 1) (VObj 1); Subscription (VFun 2) VNull]
               ++ [Bound f (js_or c VNull); Bound f (js_or c VNull)]).
Proof.
  assert (Hwf : well_formed
                  (set_events create (Some "ready")
                     [Subscription (VFun 1) (VObj 1);
                      Subscription (VFun 2) VNull])).
  { apply well_formed_set_events; [apply well_formed_create|].
    repeat constructor. }
  split; [exact Hwf|]. split; [reflexivity|].
  apply (trigger_submits_each_subscription
           (set_events create (Some "ready")
              [Subscription (VFun 1) (VObj 1); Subscription (VFun 2) VNull])
           (Some "ready")
           [Subscription (VFun 1) (VObj 1); Subscription (VFun 2) VNull]).
  - exact Hwf.
  - reflexivity.
Defined.

(** C2 fails on names inherited from [Object.prototype]: on a new entity,
    whose stored callbacks are trivially functions, [trigger("constructor")]
    throws a [TypeError] and returns no submission, and [on("toString", f)]
    throws a [TypeError] instead of registering [f], so that the following
    [trigger("toString")] submits nothing. *)
Lemma trigger_submits_inherited :
  well_formed create
  /\ trigger create (Some "constructor")
     = Throws {| events := <["constructor" := Function 1]> ∅ |} TypeError
  /\ (forall this' submitted,
        trigger create (Some "constructor") <> Returns this' submitted)
  /\ on create (Some "toString") (VFun 1) VNull
     = Throws {| events := <["toString" := Function 0]> ∅ |} TypeError
  /\ trigger (receiver (on create (Some "toString") (VFun 1) VNull))
       (Some "toString")
     = Returns {| events := <["toString" := Function 0]> ∅ |} [].
Proof.
  split; [apply well_formed_create|]. split; [reflexivity|].
  split; [intros this' submitted; discriminate|].
  split; reflexivity.
Qed.

(** ** Removing *)

(** C4. [off(e, f)] on an event that has an entry returns the receiver
    with, under [e], the array without the subscriptions whose callback is
    [===] to [f], whatever their context and wherever they stand (the
    others are kept, in order), and with every other event as it was. *)
Theorem off_callback_removes_matching this event f arr :
  f <> VUndefined ->
  events this !! key event = Some (Array arr) ->
  exists this',
    off this event f VUndefined = Return this'
    /\ events this' !! key event =
       Some (Array
               (List.filter
                  (fun sub => negb (strict_eq (callback sub) f)) arr))
    /\ forall name : string,
         name <> key event -> events this' !! name = events this !! name.
Proof.
  intros Hf Harr. eexists. split; [apply (off_callback _ _ _ _ Hf Harr)|].
  split; [apply set_events_eq|]. intros name Hne. apply set_events_ne, Hne.
Qed.

Lemma off_callback_removes_matching_witness :
  VFun 1 <> VUndefined
  /\ events (set_events
               (set_events create (Some "go") [Subscription (VFun 1) VNull])
               (Some "ready")
               [Subscription (VFun 1) (VObj 1); Subscription (VFun 1) (VObj 2);
                Subscription (VFun 2) VNull; Subscription (VFun 1) VNull])
       !! key (Some "ready")
     = Some (Array
               [Subscription (VFun 1) (VObj 1); Subscription (VFun 1) (VObj 2);
                Subscription (VFun 2) VNull; Subscription (VFun 1) VNull])
  /\ exists this',
       off (set_events
              (set_events create (Some "go") [Subscription (VFun 1) VNull])
              (Some "ready")
              [Subscription (VFun 1) (VObj 1); Subscription (VFun 1) (VObj 2);
               Subscription (VFun 2) VNull; Subscription (VFun 1) VNull])
         (Some "ready") (VFun 1) VUndefined = Return this'
       /\ events this' !! key (Some "ready")
          = Some (Array [Subscription (VFun 2) VNull])
       /\ forall name : string,
            name <> key (Some "ready") ->
            events this' !! name =
            events (set_events
                      (set_events create (Some "go")
                         [Subscription (VFun 1) VNull])
                      (Some "ready")
                      [Subscription (VFun 1) (VObj 1);
                       Subscription (VFun 1) (VObj 2);
                       Subscription (VFun 2) VNull;
                       Subscription (VFun 1) VNull]) !! name.
Proof.
  split; [discriminate|]. split; [reflexivity|].
  apply (off_callback_removes_matching _ (Some "ready") (VFun 1)
           [Subscription (VFun 1) (VObj 1); Subscription (VFun 1) (VObj 2);
            Subscription (VFun 2) VNull; Subscription (VFun 1) VNull]).
  - discriminate.
  - reflexivity.
Defined.

(** C5. [off(e, f, c)] on an event that has an entry returns the receiver
    with, under [e], the array without the subscriptions whose callback is
    [===] to [f] and whose context is [===] to [c]; a subscription with
    callback [f] and another context is still there, and every other event
    is as it was. *)
Theorem off_callback_context_removes_matching this event f c arr :
  c <> VUndefined ->
  events this !! key event = Some (Array arr) ->
  exists this' arr',
    off this event f c = Return this'
    /\ events this' !! key event = Some (Array arr')
    /\ arr' = List.filter
                (fun sub => negb (strict_eq (callback sub) f
                                  && strict_eq (context sub) c)) arr
    /\ (forall sub,
          In sub arr -> strict_eq (context sub) c = false -> In sub arr')
    /\ forall name : string,
         name <> key event -> events this' !! name = events this !! name.
Proof.
  intros Hc Harr. eexists _, _.
  split; [apply (off_callback_context _ _ _ _ _ Hc Harr)|].
  split; [apply set_events_eq|]. split; [reflexivity|]. split.
  - intros sub Hin Hctx. apply without_In. split; [exact Hin|].
    unfold same_callback_and_context. rewrite Hctx. apply andb_false_r.
  - intros name Hne. apply set_events_ne, Hne.
Qed.

Lemma off_callback_context_removes_matching_witness :
  VObj 1 <> VUndefined
  /\ events (set_events create (Some "ready")
               [Subscription (VFun 1) (VObj 1); Subscription (VFun 1) (VObj 2)])
       !! key (Some "ready")
     = Some (Array
               [Subscription (VFun 1) (VObj 1); Subscription (VFun 1) (VObj 2)])
  /\ exists this' arr',
       off (set_events create (Some "ready")
              [Subscription (VFun 1) (VObj 1); Subscription (VFun 1) (VObj 2)])
         (Some "ready") (VFun 1) (VObj 1) = Return this'
       /\ events this' !! key (Some "ready") = Some (Array arr')
       /\ arr' = [Subscription (VFun 1) (VObj 2)]
       /\ (forall sub,
             In sub [Subscription (VFun 1) (VObj 1);
                     Subscription (VFun 1) (VObj 2)] ->
             strict_eq (context sub) (VObj 1) = false -> In sub arr')
       /\ forall name : string,
            name <> key (Some "ready") ->
            events this' !! name =
            events (set_events create (Some "ready")
                      [Subscription (VFun 1) (VObj 1);
                       Subscription (VFun 1) (VObj 2)]) !! name.
Proof.
  split; [discriminate|]. split; [reflexivity|].
  apply (off_callback_context_removes_matching _ (Some "ready") (VFun 1)
           (VObj 1)
           [Subscription (VFun 1) (VObj 1); Subscription (VFun 1) (VObj 2)]).
  - discriminate.
  - reflexivity.
Defined.

(** C9, as the code has it.  When [this.events[event] || []] is an array
    (the event has an array of its own, or has no entry and names no member
    of [Object.prototype]), a function subscribed with a falsy context
    ([undefined], [null], [false], [0], [NaN] or the empty string) is stored
    with context [null].  A later [off(e, f, c)] with that falsy [c], when
    [c] is a supplied value other than [null], keeps the subscription;
    [off(e, f, null)] removes it. *)
Theorem on_falsy_context_stores_null this event f c arr :
  is_function f = true ->
  truthy c = false ->
  events_or_empty this event = Array arr ->
  on this event f c =
    Returns (set_events this event (arr ++ [Subscription f VNull])) tt
  /\ (c <> VNull -> c <> VUndefined ->
      off (set_events this event (arr ++ [Subscription f VNull])) event f c =
        Return (set_events this event
                  (without (same_callback_and_context f c) arr
                   ++ [Subscription f VNull])))
  /\ off (set_events this event (arr ++ [Subscription f VNull])) event f VNull
     = Return (set_events this event
                 (without (same_callback_and_context f VNull) arr))
  /\ ~ In (Subscription f VNull)
         (without (same_callback_and_context f VNull) arr).
Proof.
  intros Hf Hc Harr.
  assert (Hself : same_callback_and_context f VNull (Subscription f VNull)
                  = true).
  { unfold same_callback_and_context. simpl.
    rewrite strict_eq_function by exact Hf. reflexivity. }
  split; [|split; [|split]].
  - rewrite (on_array _ _ _ _ _ Hf Harr). unfold js_or. rewrite Hc.
    reflexivity.
  - intros Hnull Hundef.
    rewrite (off_callback_context _ _ _ _ _ Hundef (set_events_eq _ _ _)).
    rewrite set_events_twice, without_app. do 3 f_equal.
    assert (Hother : same_callback_and_context f c (Subscription f VNull)
                     = false).
    { unfold same_callback_and_context. cbn [callback context].
      rewrite (strict_eq_null_falsy c Hnull). apply andb_false_r. }
    unfold without. cbn [List.filter]. rewrite Hother. reflexivity.
  - assert (Hnull : VNull <> VUndefined) by discriminate.
    rewrite (off_callback_context _ _ _ _ _ Hnull (set_events_eq _ _ _)).
    rewrite set_events_twice, without_app. do 2 f_equal.
    unfold without at 2. cbn [List.filter]. rewrite Hself. apply app_nil_r.
  - rewrite without_In. intros [_ Hkept]. congruence.
Qed.

Lemma on_falsy_context_stores_null_witness :
  is_function (VFun 1) = true
  /\ truthy (VNum 0) = false
  /\ events_or_empty create (Some "ready") = Array []
  /\ on create (Some "ready") (VFun 1) (VNum 0) =
       Returns (set_events create (Some "ready")
                  ([] ++ [Subscription (VFun 1) VNull])) tt
  /\ (VNum 0 <> VNull -> VNum 0 <> VUndefined ->
      off (set_events create (Some "ready")
             ([] ++ [Subscription (VFun 1) VNull])) (Some "ready")
        (VFun 1) (VNum 0) =
        Return (set_events create (Some "ready")
                  [Subscription (VFun 1) VNull]))
  /\ off (set_events create (Some "ready")
            ([] ++ [Subscription (VFun 1) VNull])) (Some "ready")
       (VFun 1) VNull =
       Return (set_events create (Some "ready") [])
  /\ ~ In (Subscription (VFun 1) VNull) [].
Proof.
  split; [reflexivity|]. split; [reflexivity|]. split; [reflexivity|].
  apply (on_falsy_context_stores_null create (Some "ready") (VFun 1)
           (VNum 0) []); reflexivity.
Defined.

(** C9 fails on names inherited from [Object.prototype]: on a new entity
    [on("toString", f, 0)] throws a [TypeError], and what it leaves under
    the event is the inherited function: no subscription is stored, with
    [null] or any other context. *)
Lemma on_falsy_context_inherited :
  is_function (VFun 1) = true
  /\ truthy (VNum 0) = false
  /\ on create (Some "toString") (VFun 1) (VNum 0)
     = Throws {| events := <["toString" := Function 0]> ∅ |} TypeError
  /\ forall arr,
       events (receiver (on create (Some "toString") (VFun 1) (VNum 0)))
         !! "toString" <> Some (Array arr).
Proof.
  split; [reflexivity|]. split; [reflexivity|]. split; [reflexivity|].
  intros arr. discriminate.
Qed.

(** What [off(e, f, undefined)] does instead: the context argument is
    taken as omitted and every subscription of [f] goes. *)
Lemma off_undefined_context_is_off_callback this event f arr :
  is_function f = true ->
  events_or_empty this event = Array arr ->
  off (receiver (on this event f VUndefined)) event f VUndefined =
  Return (set_events this event (without (same_callback f) arr)).
Proof.
  intros Hf Harr. rewrite (on_array _ _ _ _ _ Hf Harr). simpl receiver.
  rewrite (off_callback _ _ _ _ (function_defined f Hf)
             (set_events_eq _ _ _)).
  rewrite set_events_twice, without_app. do 2 f_equal.
  unfold without at 2, same_callback. cbn [List.filter callback].
  rewrite strict_eq_function by exact Hf. apply app_nil_r.
Qed.

(** ** The scheduler selection *)



(** The queued task is called when the posted message is handled. *)
Lemma handle_calls_queued (r : Defer.registration) (fn : value)
    (l : Defer.loop) :
  Defer.queue l = [] ->
  Defer.called
    (Defer.handle true Defer.message
       (Defer.schedule (Defer.MessageQueue r) fn l))
  = Defer.called l ++ [fn].
Proof. intros Hq. unfold Defer.handle. simpl. rewrite Hq. reflexivity. Qed.




(** * Further properties of the registry *)

(** ** Auxiliary facts *)

Lemma strict_eq_true (a b : value) : strict_eq a b = true -> a = b.
Proof.
  destruct a, b; simpl; try discriminate; intros H; try reflexivity.
  - apply Bool.eqb_prop in H. congruence.
  - apply Z.eqb_eq in H. congruence.
  - apply String.eqb_eq in H. congruence.
  - apply Nat.eqb_eq in H. congruence.
  - apply Nat.eqb_eq in H. congruence.
Qed.

Lemma strict_eq_stored (c : value) :
  c = VNull \/ truthy c = true -> strict_eq c c = true.
Proof.
  intros [->|Hc]; [reflexivity|].
  destruct c; simpl in *; try discriminate.
  - apply Bool.eqb_reflx.
  - apply Z.eqb_refl.
  - apply String.eqb_refl.
  - apply Nat.eqb_refl.
  - apply Nat.eqb_refl.
Qed.

Lemma js_or_null_stored (c : value) :
  js_or c VNull = VNull \/ truthy (js_or c VNull) = true.
Proof. unfold js_or. destruct (truthy c) eqn:Hc; auto. Qed.

Lemma without_none test (arr : list subscription) :
  (forall sub, In sub arr -> test sub = false) -> without test arr = arr.
Proof.
  unfold without. induction arr as [|sub arr IH]; intros Hall; simpl;
    [reflexivity|].
  rewrite (Hall sub) by (left; reflexivity). simpl. f_equal.
  apply IH. intros sub' Hin. apply Hall. right. exact Hin.
Qed.

Lemma without_sublist test (arr : list subscription) :
  sublist (without test arr) arr.
Proof.
  unfold without. induction arr as [|sub arr IH]; simpl; [constructor|].
  destruct (test sub); simpl; [apply sublist_cons|apply sublist_skip];
    exact IH.
Qed.

(** The assignment done twice is the assignment done once. *)
Lemma events_or_empty_store this event :
  events_or_empty (store this event (events_or_empty this event)) event
  = events_or_empty this event.
Proof. unfold events_or_empty at 1. rewrite read_store. reflexivity. Qed.

Lemma store_twice this event e :
  store (store this event e) event e = store this event e.
Proof.
  unfold store. destruct (String.eqb (key event) "__proto__").
  - reflexivity.
  - apply mixin_eq. simpl. apply insert_insert_eq.
Qed.

(** ** Subscribing *)

(** X1. When [this.events[event] || []] is an array (the event has an
    array of its own, or has no entry and names no member of
    [Object.prototype]), [on] with a function returns and puts one
    subscription after those the event already has, with the context as
    given when it is truthy and [null] otherwise, and changes no other
    event. *)
Theorem on_appends_at_the_end this event f c arr :
  is_function f = true ->
  events_or_empty this event = Array arr ->
  exists this',
    on this event f c = Returns this' tt
    /\ events this' !! key event =
       Some (Array (arr ++ [Subscription f (if truthy c then c else VNull)]))
    /\ forall name : string,
         name <> key event -> events this' !! name = events this !! name.
Proof.
  intros Hf Harr. eexists. split; [apply (on_array _ _ _ _ _ Hf Harr)|].
  split.
  - apply set_events_eq.
  - intros name Hne. apply set_events_ne, Hne.
Qed.

Lemma on_appends_at_the_end_witness :
  is_function (VFun 2) = true
  /\ events_or_empty
       (set_events create (Some "ready") [Subscription (VFun 1) VNull])
       (Some "ready") = Array [Subscription (VFun 1) VNull]
  /\ exists this',
       on (set_events create (Some "ready") [Subscription (VFun 1) VNull])
         (Some "ready") (VFun 2) (VObj 7) = Returns this' tt
       /\ events this' !! key (Some "ready") =
          Some (Array ([Subscription (VFun 1) VNull]
                       ++ [Subscription (VFun 2) (VObj 7)]))
       /\ forall name : string,
            name <> key (Some "ready") ->
            events this' !! name =
            events (set_events create (Some "ready")
                      [Subscription (VFun 1) VNull]) !! name.
Proof.
  split; [reflexivity|]. split; [reflexivity|].
  apply (on_appends_at_the_end
           (set_events create (Some "ready") [Subscription (VFun 1) VNull])
           (Some "ready") (VFun 2) (VObj 7) [Subscription (VFun 1) VNull]);
    reflexivity.
Defined.

(** X2. Whatever its arguments, and whether it returns or throws, [on]
    removes and reorders nothing: every array stored before is a prefix of
    the array stored under the same name afterwards. *)
Theorem on_only_appends this event f c (name : string)
    (arr : list subscription) :
  events this !! name = Some (Array arr) ->
  exists arr',
    events (receiver (on this event f c)) !! name = Some (Array arr')
    /\ arr `prefix_of` arr'.
Proof.
  intros Harr. destruct (is_function f) eqn:Hf.
  - rewrite receiver_on by exact Hf.
    destruct (events_or_empty this event) as [arr0|n|] eqn:Hentry.
    + destruct (decide (name = key event)) as [->|Hne].
      * rewrite (events_or_empty_present _ _ _ Harr) in Hentry.
        injection Hentry as <-. rewrite set_events_eq.
        eexists. split; [reflexivity|]. apply prefix_app_r. reflexivity.
      * rewrite set_events_ne by exact Hne. exists arr.
        split; [exact Harr|reflexivity].
    + rewrite <- Hentry. exists arr.
      split; [apply store_own, Harr|reflexivity].
    + rewrite <- Hentry. exists arr.
      split; [apply store_own, Harr|reflexivity].
  - rewrite on_ignores by exact Hf. exists arr. split; [exact Harr|].
    reflexivity.
Qed.

Lemma on_only_appends_witness :
  events (set_events create (Some "ready") [Subscription (VFun 1) VNull])
    !! "ready" = Some (Array [Subscription (VFun 1) VNull])
  /\ exists arr',
       events (receiver
                 (on (set_events create (Some "ready")
                        [Subscription (VFun 1) VNull])
                    (Some "ready") (VFun 2) (VNum 5))) !! "ready"
       = Some (Array arr')
       /\ [Subscription (VFun 1) VNull] `prefix_of` arr'.
Proof.
  split; [reflexivity|].
  apply (on_only_appends
           (set_events create (Some "ready") [Subscription (VFun 1) VNull])
           (Some "ready") (VFun 2) (VNum 5) "ready"
           [Subscription (VFun 1) VNull]).
  reflexivity.
Defined.

(** X3. Subscriptions on distinct events are independent: when
    [this.events[event] || []] is an array for both events, the two calls
    of [on] return in either order and give the same state. *)
Theorem on_distinct_events_commute this event1 f1 c1 arr1 event2 f2 c2 arr2 :
  key event1 <> key event2 ->
  events_or_empty this event1 = Array arr1 ->
  events_or_empty this event2 = Array arr2 ->
  exists this1 this2 this',
    on this event1 f1 c1 = Returns this1 tt
    /\ on this1 event2 f2 c2 = Returns this' tt
    /\ on this event2 f2 c2 = Returns this2 tt
    /\ on this2 event1 f1 c1 = Returns this' tt.
Proof.
  intros Hne H1 H2.
  destruct (is_function f1) eqn:Hf1, (is_function f2) eqn:Hf2.
  - eexists _, _, _.
    split; [apply (on_array _ _ _ _ _ Hf1 H1)|].
    split; [apply on_array; [exact Hf2|]|].
    { rewrite events_or_empty_set_ne by congruence. exact H2. }
    split; [apply (on_array _ _ _ _ _ Hf2 H2)|].
    rewrite (on_array _ event1 f1 c1 arr1 Hf1).
    + f_equal. apply mixin_eq. simpl. apply insert_insert_ne. congruence.
    + rewrite events_or_empty_set_ne by congruence. exact H1.
  - eexists _, _, _.
    split; [apply (on_array _ _ _ _ _ Hf1 H1)|].
    split; [apply on_ignores, Hf2|].
    split; [apply on_ignores, Hf2|].
    apply (on_array _ _ _ _ _ Hf1 H1).
  - eexists _, _, _.
    split; [apply on_ignores, Hf1|].
    split; [apply (on_array _ _ _ _ _ Hf2 H2)|].
    split; [apply (on_array _ _ _ _ _ Hf2 H2)|].
    apply on_ignores, Hf1.
  - exists this, this, this.
    repeat split; apply on_ignores; assumption.
Qed.

Lemma on_distinct_events_commute_witness :
  key (Some "ready") <> key (Some "done")
  /\ events_or_empty create (Some "ready") = Array []
  /\ events_or_empty create (Some "done") = Array []
  /\ exists this1 this2 this',
       on create (Some "ready") (VFun 1) VNull = Returns this1 tt
       /\ on this1 (Some "done") (VFun 2) (VObj 1) = Returns this' tt
       /\ on create (Some "done") (VFun 2) (VObj 1) = Returns this2 tt
       /\ on this2 (Some "ready") (VFun 1) VNull = Returns this' tt.
Proof.
  split; [discriminate|]. split; [reflexivity|]. split; [reflexivity|].
  apply (on_distinct_events_commute create (Some "ready") (VFun 1) VNull []
           (Some "done") (VFun 2) (VObj 1) []).
  - discriminate.
  - reflexivity.
  - reflexivity.
Defined.

(** ** Removing *)

(** X4. [off()] with no argument always returns and leaves a map with no
    key at all; a [trigger] of any event after it submits nothing, and it
    returns when the event names no member of [Object.prototype]. *)
Theorem off_without_arguments_silences_every_event this event :
  exists cleared,
    off this None VUndefined VUndefined = Return cleared
    /\ events cleared = ∅
    /\ (forall this' submitted,
          trigger cleared event = Returns this' submitted -> submitted = [])
    /\ (object_prototype (key event) = None ->
        exists this', trigger cleared event = Returns this' []).
Proof.
  exists create. split; [reflexivity|]. split; [reflexivity|]. split.
  - intros this' submitted. rewrite trigger_cases.
    destruct (events_or_empty create event) as [arr|[|n]|] eqn:Hentry;
      try discriminate; try (intros H; injection H as _ <-; reflexivity).
    apply events_or_empty_array in Hentry as [Hown|(_ & _ & ->)].
    + simpl in Hown. rewrite lookup_empty in Hown. discriminate.
    + intros H. injection H as _ <-. reflexivity.
  - intros Hplain. eexists. apply (trigger_array create event []).
    apply events_or_empty_array. right. split; [apply lookup_empty|auto].
Qed.

(** X5. [off(e)] on an event that has an array of its own empties the
    array and keeps the key, leaves every other event as it was, and a
    [trigger] of [e] after it submits nothing. *)
Theorem off_event_clears_only_that_event this (name : string)
    (arr : list subscription) :
  events this !! name = Some (Array arr) ->
  exists this',
    off this (Some name) VUndefined VUndefined = Return this'
    /\ events this' !! name = Some (Array [])
    /\ (forall other : string,
          other <> name -> events this' !! other = events this !! other)
    /\ trigger this' (Some name) = Returns this' [].
Proof.
  intros Harr. exists (set_events this (Some name) []).
  split; [apply (off_event _ _ _ Harr)|].
  split; [apply (set_events_eq this (Some name))|]. split.
  - intros other Hne. apply (set_events_ne this (Some name)), Hne.
  - rewrite (trigger_array _ _ _ (events_or_empty_set _ _ _)).
    rewrite set_events_twice. reflexivity.
Qed.

Lemma off_event_clears_only_that_event_witness :
  events (set_events
            (set_events create (Some "done") [Subscription (VFun 2) VNull])
            (Some "ready") [Subscription (VFun 1) VNull]) !! "ready"
    = Some (Array [Subscription (VFun 1) VNull])
  /\ exists this',
       off (set_events
              (set_events create (Some "done") [Subscription (VFun 2) VNull])
              (Some "ready") [Subscription (VFun 1) VNull])
         (Some "ready") VUndefined VUndefined = Return this'
       /\ events this' !! "ready" = Some (Array [])
       /\ (forall other : string,
             other <> "ready" ->
             events this' !! other =
             events (set_events
                       (set_events create (Some "done")
                          [Subscription (VFun 2) VNull])
                       (Some "ready") [Subscription (VFun 1) VNull])
               !! other)
       /\ trigger this' (Some "ready") = Returns this' [].
Proof.
  split; [reflexivity|].
  apply (off_event_clears_only_that_event
           (set_events
              (set_events create (Some "done") [Subscription (VFun 2) VNull])
              (Some "ready") [Subscription (VFun 1) VNull])
           "ready" [Subscription (VFun 1) VNull]).
  reflexivity.
Defined.

(** X6. [off] returns in exactly three cases: it is called with no argument
    at all; or the event has an array of its own; or a callback or a context
    is supplied and [this.events[event]] is inherited from
    [Object.prototype] as a function of length 0 (such as [toString]) or as
    the prototype object ([__proto__]), on which the removal loop does not
    run.  In every other case it throws, and what it throws is a
    [TypeError]. *)
Theorem off_returns_iff this event f c :
  ((exists this', off this event f c = Return this')
   <-> (event = None /\ f = VUndefined /\ c = VUndefined)
       \/ (exists arr, events this !! key event = Some (Array arr))
       \/ ((f <> VUndefined \/ c <> VUndefined)
           /\ (read this event = Some (Function 0)
               \/ read this event = Some Prototype)))
  /\ forall e, off this event f c = Throw e -> e = TypeError.
Proof.
  unfold off.
  destruct (strict_eq f VUndefined && strict_eq c VUndefined
            && event_undefined event) eqn:Hall.
  { apply andb_prop in Hall as [Hfc He]. apply andb_prop in Hfc as [Hf Hc].
    apply strict_eq_true in Hf, Hc. destruct event; [discriminate|].
    split; [|discriminate]. split; eauto. }
  assert (Hnot : ~ (event = None /\ f = VUndefined /\ c = VUndefined)).
  { intros (-> & -> & ->). discriminate. }
  destruct (strict_eq f VUndefined && strict_eq c VUndefined) eqn:Hfc.
  - apply andb_prop in Hfc as [Hf Hc]. apply strict_eq_true in Hf, Hc.
    subst f c. unfold off_clear.
    destruct (read this event) as [[arr|n|]|] eqn:Hread.
    + apply read_array in Hread. split; [|discriminate].
      split; eauto.
    + split; [|intros e H; injection H as <-; reflexivity].
      split; [intros [? H]; discriminate|].
      intros [H|[[arr H]|[[H|H] _]]]; try contradiction.
      apply read_array in H. congruence.
    + split; [|intros e H; injection H as <-; reflexivity].
      split; [intros [? H]; discriminate|].
      intros [H|[[arr H]|[[H|H] _]]]; try contradiction.
      apply read_array in H. congruence.
    + split; [|intros e H; injection H as <-; reflexivity].
      split; [intros [? H]; discriminate|].
      intros [H|[[arr H]|[[H|H] _]]]; try contradiction.
      apply read_array in H. congruence.
  - assert (Hsupplied : f <> VUndefined \/ c <> VUndefined).
    { destruct (strict_eq f VUndefined) eqn:Hf.
      - right. apply strict_eq_undefined. simpl in Hfc. exact Hfc.
      - left. apply strict_eq_undefined. exact Hf. }
    assert (Hpass : forall test,
              ((exists this', off_pass test this event = Return this')
               <-> (event = None /\ f = VUndefined /\ c = VUndefined)
                   \/ (exists arr,
                         events this !! key event = Some (Array arr))
                   \/ ((f <> VUndefined \/ c <> VUndefined)
                       /\ (read this event = Some (Function 0)
                           \/ read this event = Some Prototype)))
              /\ forall e, off_pass test this event = Throw e -> e = TypeError).
    { intros test. unfold off_pass.
      destruct (read this event) as [[arr|[|n]|]|] eqn:Hread.
      - apply read_array in Hread. rewrite off_loop_all. simpl.
        split; [|discriminate]. split; eauto.
      - split; [|discriminate]. split; eauto.
      - split; [|intros e H; injection H as <-; reflexivity].
        split; [intros [? H]; discriminate|].
        intros [H|[[arr H]|[_ [H|H]]]]; try contradiction;
          try discriminate.
        apply read_array in H. congruence.
      - split; [|discriminate]. split; eauto.
      - split; [|intros e H; injection H as <-; reflexivity].
        split; [intros [? H]; discriminate|].
        intros [H|[[arr H]|[_ [H|H]]]]; try contradiction;
          try discriminate.
        apply read_array in H. congruence. }
    destruct (strict_eq c VUndefined); apply Hpass.
Qed.

(** X7. A second [off] with the arguments of one that returned returns the
    same state: nothing more is removed and nothing is thrown. *)
Theorem off_repeated_changes_nothing this event f c this' :
  off this event f c = Return this' ->
  (let* again := off this event f c in off again event f c) = Return this'.
Proof.
  intros Hoff. rewrite Hoff. simpl. apply (off_again _ _ _ _ _ Hoff).
Qed.

Lemma off_repeated_changes_nothing_witness :
  off (set_events create (Some "ready")
         [Subscription (VFun 1) VNull; Subscription (VFun 2) VNull])
    (Some "ready") (VFun 1) VUndefined
    = Return (set_events create (Some "ready") [Subscription (VFun 2) VNull])
  /\ (let* again := off (set_events create (Some "ready")
                          [Subscription (VFun 1) VNull;
                           Subscription (VFun 2) VNull])
                      (Some "ready") (VFun 1) VUndefined in
      off again (Some "ready") (VFun 1) VUndefined)
     = Return (set_events create (Some "ready")
                 [Subscription (VFun 2) VNull]).
Proof.
  split; [vm_compute; reflexivity|].
  apply (off_repeated_changes_nothing
           (set_events create (Some "ready")
              [Subscription (VFun 1) VNull; Subscription (VFun 2) VNull])
           (Some "ready") (VFun 1) VUndefined).
  vm_compute. reflexivity.
Defined.

(** X8. [off] adds nothing and reorders nothing: every array stored after
    a call that returned is under a name that had an array before, and is a
    sublist of that array. *)
Theorem off_only_removes this event f c this' (name : string)
    (arr' : list subscription) :
  off this event f c = Return this' ->
  events this' !! name = Some (Array arr') ->
  exists arr, events this !! name = Some (Array arr) /\ sublist arr' arr.
Proof.
  intros Hoff Harr'.
  destruct (off_returned _ _ _ _ _ Hoff)
    as [->|[(arr & test & Harr & ->)| ->]].
  - simpl in Harr'. rewrite lookup_empty in Harr'. discriminate.
  - destruct (decide (name = key event)) as [->|Hne].
    + rewrite set_events_eq in Harr'. injection Harr' as <-.
      exists arr. split; [exact Harr|apply without_sublist].
    + rewrite set_events_ne in Harr' by exact Hne.
      exists arr'. split; [exact Harr'|reflexivity].
  - exists arr'. split; [exact Harr'|reflexivity].
Qed.

Lemma off_only_removes_witness :
  off (set_events create (Some "ready")
         [Subscription (VFun 1) VNull; Subscription (VFun 2) VNull])
    (Some "ready") (VFun 1) VUndefined
    = Return (set_events create (Some "ready") [Subscription (VFun 2) VNull])
  /\ events (set_events create (Some "ready") [Subscription (VFun 2) VNull])
       !! "ready" = Some (Array [Subscription (VFun 2) VNull])
  /\ exists arr,
       events (set_events create (Some "ready")
                 [Subscription (VFun 1) VNull; Subscription (VFun 2) VNull])
         !! "ready" = Some (Array arr)
       /\ sublist [Subscription (VFun 2) VNull] arr.
Proof.
  split; [vm_compute; reflexivity|]. split; [reflexivity|].
  apply (off_only_removes
           (set_events create (Some "ready")
              [Subscription (VFun 1) VNull; Subscription (VFun 2) VNull])
           (Some "ready") (VFun 1) VUndefined
           (set_events create (Some "ready") [Subscription (VFun 2) VNull])
           "ready" [Subscription (VFun 2) VNull]).
  - vm_compute. reflexivity.
  - reflexivity.
Defined.

(** ** What the methods keep of the stored subscriptions *)

(** A stored context is never [===] to a falsy value other than [null]. *)
Lemma stored_context_not_falsy (sub : subscription) (c : value) :
  stored_by_on sub -> truthy c = false -> c <> VNull ->
  strict_eq (context sub) c = false.
Proof.
  intros [_ Hctx] Hc Hnull.
  destruct (strict_eq (context sub) c) eqn:Heq; [|reflexivity].
  apply strict_eq_true in Heq. subst c.
  destruct Hctx as [Hctx|Hctx]; congruence.
Qed.

Lemma reachable_as_stored this : reachable this -> as_stored this.
Proof.
  induction 1 as [|this event f c _ IH|this event f c this' _ IH Hoff
                  |this event _ IH].
  - intros name arr. apply stored_create.
  - refine (stored_on _ _ _ _ _ _ IH). intros Hf.
    split; [exact Hf|apply js_or_null_stored].
  - exact (stored_off _ _ _ _ _ _ IH Hoff).
  - exact (stored_trigger _ _ _ IH).
Qed.

(** X9. In every state an entity goes through from its creation by calls
    of [on], [off] and [trigger], each stored callback is a function and
    each stored context is [null] or a truthy value: never [undefined],
    [false], [0], [NaN] or the empty string. *)
Theorem reachable_states_are_as_stored this (name : string)
    (arr : list subscription) (sub : subscription) :
  reachable this ->
  events this !! name = Some (Array arr) ->
  In sub arr ->
  is_function (callback sub) = true
  /\ (context sub = VNull \/ truthy (context sub) = true).
Proof.
  intros Hreach Harr Hin.
  pose proof (reachable_as_stored this Hreach name arr Harr) as Hstored.
  rewrite List.Forall_forall in Hstored. apply Hstored, Hin.
Qed.

Lemma reachable_states_are_as_stored_witness :
  reachable (receiver (on create (Some "ready") (VFun 1) (VNum 0)))
  /\ events (receiver (on create (Some "ready") (VFun 1) (VNum 0))) !! "ready"
     = Some (Array [Subscription (VFun 1) VNull])
  /\ In (Subscription (VFun 1) VNull) [Subscription (VFun 1) VNull]
  /\ is_function (callback (Subscription (VFun 1) VNull)) = true
  /\ (context (Subscription (VFun 1) VNull) = VNull
      \/ truthy (context (Subscription (VFun 1) VNull)) = true).
Proof.
  split; [apply reachable_on, reachable_create|].
  split; [reflexivity|]. split; [left; reflexivity|].
  apply (reachable_states_are_as_stored
           (receiver (on create (Some "ready") (VFun 1) (VNum 0))) "ready"
           [Subscription (VFun 1) VNull] (Subscription (VFun 1) VNull)).
  - apply reachable_on, reachable_create.
  - reflexivity.
  - left. reflexivity.
Defined.

(** X10. In such a state, [off(e, f, c)] with a falsy context other than
    [null] and [undefined] ([false], [0], [NaN], the empty string) on an
    event that has an array of its own removes nothing: it returns the
    receiver as it was. *)
Theorem off_falsy_context_removes_nothing this event f c
    (arr : list subscription) :
  reachable this ->
  truthy c = false -> c <> VNull -> c <> VUndefined ->
  events this !! key event = Some (Array arr) ->
  off this event f c = Return this.
Proof.
  intros Hreach Hc Hnull Hundef Harr.
  rewrite (off_callback_context _ _ _ _ _ Hundef Harr).
  rewrite without_none.
  - rewrite (set_events_same _ _ _ Harr). reflexivity.
  - intros sub Hin. unfold same_callback_and_context.
    pose proof (reachable_as_stored this Hreach _ arr Harr) as Hstored.
    rewrite List.Forall_forall in Hstored.
    rewrite (stored_context_not_falsy sub c (Hstored sub Hin) Hc Hnull).
    apply andb_false_r.
Qed.

Lemma off_falsy_context_removes_nothing_witness :
  reachable (receiver (on create (Some "ready") (VFun 1) (VNum 0)))
  /\ truthy (VNum 0) = false /\ VNum 0 <> VNull /\ VNum 0 <> VUndefined
  /\ events (receiver (on create (Some "ready") (VFun 1) (VNum 0)))
       !! key (Some "ready")
     = Some (Array [Subscription (VFun 1) VNull])
  /\ off (receiver (on create (Some "ready") (VFun 1) (VNum 0)))
       (Some "ready") (VFun 1) (VNum 0)
     = Return (receiver (on create (Some "ready") (VFun 1) (VNum 0))).
Proof.
  split; [apply reachable_on, reachable_create|].
  split; [reflexivity|]. split; [discriminate|]. split; [discriminate|].
  split; [reflexivity|].
  apply (off_falsy_context_removes_nothing
           (receiver (on create (Some "ready") (VFun 1) (VNum 0)))
           (Some "ready") (VFun 1) (VNum 0) [Subscription (VFun 1) VNull]).
  - apply reachable_on, reachable_create.
  - reflexivity.
  - discriminate.
  - discriminate.
  - reflexivity.
Defined.

(** ** Subscribing and removing again *)

(** X11. [on(e, f, c)] followed by [off(e, f)] gives back the state before
    the two calls when [e] had an array of its own and none of its
    subscriptions had the callback [f]. *)
Theorem on_then_off_callback_restores this event f c
    (arr : list subscription) :
  is_function f = true ->
  events this !! key event = Some (Array arr) ->
  (forall sub, In sub arr -> strict_eq (callback sub) f = false) ->
  exists this1,
    on this event f c = Returns this1 tt
    /\ off this1 event f VUndefined = Return this.
Proof.
  intros Hf Harr Hfresh. eexists.
  split; [apply (on_array _ _ _ _ _ Hf (events_or_empty_present _ _ _ Harr))|].
  rewrite (off_callback _ _ _ _ (function_defined f Hf)
             (set_events_eq _ _ _)).
  rewrite set_events_twice.
  rewrite without_app, (without_none (same_callback f) arr Hfresh).
  unfold without, same_callback. cbn [List.filter callback].
  rewrite strict_eq_function by exact Hf. cbn [negb].
  rewrite app_nil_r, (set_events_same _ _ _ Harr). reflexivity.
Qed.

Lemma on_then_off_callback_restores_witness :
  is_function (VFun 2) = true
  /\ events (set_events create (Some "ready") [Subscription (VFun 1) VNull])
       !! key (Some "ready")
     = Some (Array [Subscription (VFun 1) VNull])
  /\ (forall sub,
        In sub [Subscription (VFun 1) VNull] ->
        strict_eq (callback sub) (VFun 2) = false)
  /\ exists this1,
       on (set_events create (Some "ready") [Subscription (VFun 1) VNull])
         (Some "ready") (VFun 2) (VObj 3) = Returns this1 tt
       /\ off this1 (Some "ready") (VFun 2) VUndefined
          = Return (set_events create (Some "ready")
                      [Subscription (VFun 1) VNull]).
Proof.
  assert (Hfresh : forall sub,
            In sub [Subscription (VFun 1) VNull] ->
            strict_eq (callback sub) (VFun 2) = false).
  { intros sub [<-|[]]. reflexivity. }
  split; [reflexivity|]. split; [reflexivity|]. split; [exact Hfresh|].
  apply (on_then_off_callback_restores
           (set_events create (Some "ready") [Subscription (VFun 1) VNull])
           (Some "ready") (VFun 2) (VObj 3) [Subscription (VFun 1) VNull]).
  - reflexivity.
  - reflexivity.
  - exact Hfresh.
Defined.

(** X12. [on(e, f, c)] with a truthy context followed by [off(e, f, c)]
    gives back the state before the two calls when [e] had an array of its
    own and none of its subscriptions had both the callback [f] and the
    context [c]; subscriptions of [f] with other contexts stay. *)
Theorem on_then_off_context_restores this event f c
    (arr : list subscription) :
  is_function f = true ->
  truthy c = true ->
  events this !! key event = Some (Array arr) ->
  (forall sub,
     In sub arr ->
     strict_eq (callback sub) f && strict_eq (context sub) c = false) ->
  exists this1,
    on this event f c = Returns this1 tt
    /\ off this1 event f c = Return this.
Proof.
  intros Hf Hc Harr Hfresh. eexists.
  split; [apply (on_array _ _ _ _ _ Hf (events_or_empty_present _ _ _ Harr))|].
  assert (Hundef : c <> VUndefined) by (intros ->; discriminate).
  rewrite (off_callback_context _ _ _ _ _ Hundef (set_events_eq _ _ _)).
  rewrite set_events_twice.
  rewrite without_app,
    (without_none (same_callback_and_context f c) arr Hfresh).
  unfold without, same_callback_and_context, js_or.
  cbn [List.filter callback context]. rewrite Hc.
  rewrite strict_eq_function by exact Hf.
  rewrite strict_eq_stored by (right; exact Hc). cbn [negb andb].
  rewrite app_nil_r, (set_events_same _ _ _ Harr). reflexivity.
Qed.

Lemma on_then_off_context_restores_witness :
  is_function (VFun 1) = true
  /\ truthy (VObj 2) = true
  /\ events (set_events create (Some "ready")
               [Subscription (VFun 1) (VObj 1)]) !! key (Some "ready")
     = Some (Array [Subscription (VFun 1) (VObj 1)])
  /\ (forall sub,
        In sub [Subscription (VFun 1) (VObj 1)] ->
        strict_eq (callback sub) (VFun 1)
        && strict_eq (context sub) (VObj 2) = false)
  /\ exists this1,
       on (set_events create (Some "ready") [Subscription (VFun 1) (VObj 1)])
         (Some "ready") (VFun 1) (VObj 2) = Returns this1 tt
       /\ off this1 (Some "ready") (VFun 1) (VObj 2)
          = Return (set_events create (Some "ready")
                      [Subscription (VFun 1) (VObj 1)]).
Proof.
  assert (Hfresh : forall sub,
            In sub [Subscription (VFun 1) (VObj 1)] ->
            strict_eq (callback sub) (VFun 1)
            && strict_eq (context sub) (VObj 2) = false).
  { intros sub [<-|[]]. reflexivity. }
  split; [reflexivity|]. split; [reflexivity|]. split; [reflexivity|].
  split; [exact Hfresh|].
  apply (on_then_off_context_restores
           (set_events create (Some "ready") [Subscription (VFun 1) (VObj 1)])
           (Some "ready") (VFun 1) (VObj 2) [Subscription (VFun 1) (VObj 1)]).
  - reflexivity.
  - reflexivity.
  - reflexivity.
  - exact Hfresh.
Defined.

(** ** Triggering *)



(** X14. [trigger] consumes nothing: after a [trigger] that returned, a
    second [trigger] of the same event returns the same state and submits
    the same tasks again. *)
Theorem trigger_again_submits_the_same this event this' submitted :
  trigger this event = Returns this' submitted ->
  trigger this' event = Returns this' submitted.
Proof.
  rewrite (trigger_cases this event).
  destruct (events_or_empty this event) as [arr|[|n]|] eqn:Hentry;
    try discriminate; intros H; injection H as <- <-.
  - rewrite (trigger_array _ _ _ (events_or_empty_set _ _ _)).
    rewrite set_events_twice. reflexivity.
  - rewrite trigger_cases, <- Hentry, events_or_empty_store, Hentry.
    rewrite store_twice. reflexivity.
  - rewrite trigger_cases, <- Hentry, events_or_empty_store, Hentry.
    rewrite store_twice. reflexivity.
Qed.

Lemma trigger_again_submits_the_same_witness :
  trigger (set_events create (Some "ready") [Subscription (VFun 1) (VObj 1)])
    (Some "ready")
    = Returns (set_events create (Some "ready")
                 [Subscription (VFun 1) (VObj 1)])
        [Bound (VFun 1) (VObj 1)]
  /\ trigger (set_events create (Some "ready")
                [Subscription (VFun 1) (VObj 1)]) (Some "ready")
     = Returns (set_events create (Some "ready")
                  [Subscription (VFun 1) (VObj 1)])
         [Bound (VFun 1) (VObj 1)].
Proof.
  split; [vm_compute; reflexivity|].
  apply (trigger_again_submits_the_same
           (set_events create (Some "ready") [Subscription (VFun 1) (VObj 1)])
           (Some "ready")).
  vm_compute. reflexivity.
Defined.

(** X15. After [off(e, f)] returned, a [trigger] of [e] submits no task of
    the callback [f], whatever the context it was subscribed with. *)
Theorem off_callback_then_trigger_never_submits_it this event f this'
    this'' submitted :
  is_function f = true ->
  off this event f VUndefined = Return this' ->
  trigger this' event = Returns this'' submitted ->
  forall c, ~ In (Bound f c) submitted.
Proof.
  intros Hf Hoff Htrigger c Hin.
  pose proof (function_defined f Hf) as Hdef.
  unfold off in Hoff. apply strict_eq_undefined in Hdef.
  rewrite Hdef in Hoff. simpl in Hoff.
  apply off_pass_returned in Hoff as [(arr & Harr & ->)|[-> Hread]].
  - rewrite (trigger_array _ _ _ (events_or_empty_set _ _ _)) in Htrigger.
    injection Htrigger as _ <-.
    apply in_map_iff in Hin as (sub & Hsub & Hin).
    apply List.filter_In in Hin as [Hin _].
    apply without_In in Hin as [_ Hkept].
    unfold invocation in Hsub. injection Hsub as Hcb _.
    unfold same_callback in Hkept. rewrite Hcb in Hkept.
    rewrite (strict_eq_function f Hf) in Hkept. discriminate.
  - rewrite trigger_cases in Htrigger. unfold events_or_empty in Htrigger.
    destruct Hread as [Hread|Hread]; rewrite Hread in Htrigger;
      injection Htrigger as _ <-; exact Hin.
Qed.

Lemma off_callback_then_trigger_never_submits_it_witness :
  is_function (VFun 1) = true
  /\ off (set_events create (Some "ready")
            [Subscription (VFun 1) (VObj 1); Subscription (VFun 2) VNull])
       (Some "ready") (VFun 1) VUndefined
     = Return (set_events create (Some "ready")
                 [Subscription (VFun 2) VNull])
  /\ trigger (set_events create (Some "ready") [Subscription (VFun 2) VNull])
       (Some "ready")
     = Returns (set_events create (Some "ready")
                  [Subscription (VFun 2) VNull]) [Bound (VFun 2) VNull]
  /\ forall c, ~ In (Bound (VFun 1) c) [Bound (VFun 2) VNull].
Proof.
  split; [reflexivity|]. split; [vm_compute; reflexivity|].
  split; [vm_compute; reflexivity|].
  apply (off_callback_then_trigger_never_submits_it
           (set_events create (Some "ready")
              [Subscription (VFun 1) (VObj 1); Subscription (VFun 2) VNull])
           (Some "ready") (VFun 1)
           (set_events create (Some "ready") [Subscription (VFun 2) VNull])
           (set_events create (Some "ready") [Subscription (VFun 2) VNull])
           [Bound (VFun 2) VNull]).
  - reflexivity.
  - vm_compute. reflexivity.
  - vm_compute. reflexivity.
Defined.

(** X16. [off] with an event name leaves the other events alone: after it
    returned, a [trigger] of any other event submits the tasks, or throws
    the error, it would have before. *)
Theorem off_leaves_other_events_triggers this (name : string) f c this'
    event :
  off this (Some name) f c = Return this' ->
  key event <> name ->
  submission (trigger this' event) = submission (trigger this event).
Proof.
  intros Hoff Hne.
  destruct (off_named_returned _ _ _ _ _ Hoff)
    as [(arr & test & _ & ->)| ->]; [|reflexivity].
  rewrite !trigger_cases.
  rewrite (events_or_empty_set_ne this (Some name) event) by exact Hne.
  destruct (events_or_empty this event) as [arr0|[|n]|]; reflexivity.
Qed.

Lemma off_leaves_other_events_triggers_witness :
  off (set_events
         (set_events create (Some "done") [Subscription (VFun 2) VNull])
         (Some "ready") [Subscription (VFun 1) VNull])
    (Some "ready") VUndefined VUndefined
    = Return (set_events
                (set_events create (Some "done")
                   [Subscription (VFun 2) VNull]) (Some "ready") [])
  /\ key (Some "done") <> "ready"
  /\ submission
       (trigger (set_events
                   (set_events create (Some "done")
                      [Subscription (VFun 2) VNull]) (Some "ready") [])
          (Some "done"))
     = submission
         (trigger (set_events
                     (set_events create (Some "done")
                        [Subscription (VFun 2) VNull])
                     (Some "ready") [Subscription (VFun 1) VNull])
            (Some "done")).
Proof.
  split; [vm_compute; reflexivity|]. split; [discriminate|].
  apply (off_leaves_other_events_triggers
           (set_events
              (set_events create (Some "done") [Subscription (VFun 2) VNull])
              (Some "ready") [Subscription (VFun 1) VNull])
           "ready" VUndefined VUndefined
           (set_events
              (set_events create (Some "done") [Subscription (VFun 2) VNull])
              (Some "ready") []) (Some "done")).
  - vm_compute. reflexivity.
  - discriminate.
Defined.

(** ** Event names inherited from [Object.prototype] *)

(** X22. An event that names a member of [Object.prototype] and has no
    entry of its own cannot be subscribed: [on] with a function throws a
    [TypeError], stores no array under the event, and leaves every entry
    that was stored as it was. *)
Theorem on_inherited_name_throws this event f c (e : entry) :
  is_function f = true ->
  events this !! key event = None ->
  object_prototype (key event) = Some e ->
  exists this',
    on this event f c = Throws this' TypeError
    /\ (forall arr, events this' !! key event <> Some (Array arr))
    /\ forall (name : string) (e' : entry),
         events this !! name = Some e' -> events this' !! name = Some e'.
Proof.
  intros Hf Hnone Hproto.
  assert (Hentry : events_or_empty this event = e).
  { unfold events_or_empty, read. rewrite Hnone, Hproto. reflexivity. }
  assert (Hnot : forall arr, e <> Array arr).
  { intros arr ->. apply object_prototype_no_array in Hproto. exact Hproto. }
  exists (store this event (events_or_empty this event)). split; [|split].
  - unfold on. rewrite Hf. simpl negb. cbv iota. rewrite read_store, Hentry.
    destruct e as [arr|n|]; [destruct (Hnot arr); reflexivity| |];
      reflexivity.
  - intros arr. rewrite Hentry. unfold store.
    destruct (String.eqb (key event) "__proto__").
    + rewrite Hnone. discriminate.
    + simpl. rewrite lookup_insert_eq. intros H. injection H as H.
      exact (Hnot arr H).
  - intros name e' He'. apply store_own, He'.
Qed.

Lemma on_inherited_name_throws_witness :
  is_function (VFun 1) = true
  /\ events (set_events create (Some "ready") [Subscription (VFun 1) VNull])
       !! key (Some "toString") = None
  /\ object_prototype (key (Some "toString")) = Some (Function 0)
  /\ exists this',
       on (set_events create (Some "ready") [Subscription (VFun 1) VNull])
         (Some "toString") (VFun 1) VNull = Throws this' TypeError
       /\ (forall arr,
             events this' !! key (Some "toString") <> Some (Array arr))
       /\ forall (name : string) (e' : entry),
            events (set_events create (Some "ready")
                      [Subscription (VFun 1) VNull]) !! name = Some e' ->
            events this' !! name = Some e'.
Proof.
  split; [reflexivity|]. split; [reflexivity|]. split; [reflexivity|].
  apply (on_inherited_name_throws
           (set_events create (Some "ready") [Subscription (VFun 1) VNull])
           (Some "toString") (VFun 1) VNull (Function 0)); reflexivity.
Defined.

(** X23. Whether it returns or throws, and for every event name,
    [trigger] leaves every entry that was stored as it was, and the only
    key it can add is the event's. *)
Theorem trigger_keeps_every_entry this event :
  (forall (name : string) (e : entry),
     events this !! name = Some e ->
     events (receiver (trigger this event)) !! name = Some e)
  /\ forall name : string,
       name <> key event ->
       events (receiver (trigger this event)) !! name = events this !! name.
Proof.
  rewrite receiver_trigger. split.
  - intros name e He. apply store_own, He.
  - intros name Hne. apply store_ne, Hne.
Qed.

(** X24. [trigger] throws exactly when [this.events[event]] is a function
    whose [length] is not 0, as are the inherited [constructor] and
    [hasOwnProperty]; what it throws is a [TypeError], and it has submitted
    nothing. *)
Theorem trigger_throws_iff this event :
  ((exists this' e, trigger this event = Throws this' e)
   <-> exists n, read this event = Some (Function (S n)))
  /\ forall this' e, trigger this event = Throws this' e -> e = TypeError.
Proof.
  rewrite trigger_cases. unfold events_or_empty.
  destruct (read this event) as [[arr|[|n]|]|] eqn:Hread.
  - split; [|discriminate].
    split; [intros (? & ? & H); discriminate|intros [n H]; discriminate].
  - split; [|discriminate].
    split; [intros (? & ? & H); discriminate|intros [n H]; discriminate].
  - split; [|intros this' e H; injection H as _ <-; reflexivity].
    split; eauto.
  - split; [|discriminate].
    split; [intros (? & ? & H); discriminate|intros [n H]; discriminate].
  - split; [|discriminate].
    split; [intros (? & ? & H); discriminate|intros [n H]; discriminate].
Qed.

(** * Further properties of the scheduler *)

Lemma schedule_each_app s fns fn l :
  Host.schedule_each s (fns ++ [fn]) l
  = Defer.schedule s fn (Host.schedule_each s fns l).
Proof. unfold Host.schedule_each. rewrite fold_left_app. reflexivity. Qed.

(** A run of calls of the message-based function. *)
Lemma message_queue_schedule_each r (fns : list value) l :
  Defer.called (Host.schedule_each (Defer.MessageQueue r) fns l)
  = Defer.called l
  /\ Defer.queue (Host.schedule_each (Defer.MessageQueue r) fns l)
     = Defer.queue l ++ fns
  /\ Defer.posted (Host.schedule_each (Defer.MessageQueue r) fns l)
     = Defer.posted l ++ repeat Defer.message (length fns).
Proof.
  induction fns as [|fn fns (Hc & Hq & Hp)] using rev_ind.
  - simpl. rewrite !app_nil_r. auto.
  - rewrite schedule_each_app. simpl. rewrite Hc, Hq, Hp, length_app.
    simpl. rewrite repeat_app, !app_assoc. auto.
Qed.

(** X17. Calls of the selected function never call a task, drop none and
    merge none: after [defer(fn)] for each function of a list, the functions
    stand, in call order, at the end of the queue the mechanism uses (the
    [nextTick] queue, the module's [queue], or the timers with delay 0). *)
Theorem schedule_each_keeps_every_task s (fns : list value) l :
  Defer.called (Host.schedule_each s fns l) = Defer.called l
  /\ match s with
     | Defer.NextTick =>
         Defer.ticks (Host.schedule_each s fns l) = Defer.ticks l ++ fns
     | Defer.MessageQueue _ =>
         Defer.queue (Host.schedule_each s fns l) = Defer.queue l ++ fns
         /\ Defer.posted (Host.schedule_each s fns l)
            = Defer.posted l ++ repeat Defer.message (length fns)
     | Defer.Timeout =>
         Defer.timers (Host.schedule_each s fns l)
         = Defer.timers l ++ map (fun fn => (fn, 0%Z)) fns
     end.
Proof.
  induction fns as [|fn fns IH] using rev_ind.
  - simpl. split; [reflexivity|].
    destruct s; simpl; rewrite ?app_nil_r; auto.
  - rewrite schedule_each_app. destruct IH as [Hcalled IH]. split.
    + destruct s; simpl; exact Hcalled.
    + destruct s; simpl.
      * rewrite IH, app_assoc. reflexivity.
      * destruct IH as [Hq Hp]. rewrite Hq, Hp, length_app. simpl.
        rewrite repeat_app, !app_assoc. auto.
      * rewrite IH, map_app, app_assoc. reflexivity.
Qed.

(** The listener on a run of the module's own messages. *)
Lemma handle_own_each (n : nat) :
  forall l,
    Defer.called (Host.handle_each (repeat Host.own n) l)
    = Defer.called l ++ take n (Defer.queue l)
    /\ Defer.queue (Host.handle_each (repeat Host.own n) l)
       = drop n (Defer.queue l).
Proof.
  induction n as [|n IH]; intros l.
  - simpl. rewrite app_nil_r, drop_0. auto.
  - change (Host.handle_each (repeat Host.own (S n)) l)
      with (Host.handle_each (repeat Host.own n)
              (Defer.handle true Defer.message l)).
    destruct (IH (Defer.handle true Defer.message l)) as [Hc Hq].
    rewrite Hc, Hq. unfold Defer.handle. simpl andb. cbv iota.
    destruct (Defer.queue l) as [|fn rest] eqn:Hqueue.
    + rewrite Hqueue, !take_nil, !drop_nil. auto.
    + cbn [Defer.called Defer.queue take drop].
      rewrite <- app_assoc. auto.
Qed.

(** X18. Whatever message events reach the listener, it calls tasks only
    from the front of the queue, one for each event that comes from the
    window itself with the module's message, in the order they were queued;
    other events, and events that find the queue empty, change nothing. *)
Theorem handle_each_calls_from_the_front (es : list Host.message_event) :
  forall l,
    Defer.called (Host.handle_each es l)
    = Defer.called l
      ++ take (length (List.filter Host.is_own es)) (Defer.queue l)
    /\ Defer.queue (Host.handle_each es l)
       = drop (length (List.filter Host.is_own es)) (Defer.queue l).
Proof.
  induction es as [|[from_window data] es IH]; intros l.
  - simpl. rewrite app_nil_r, drop_0. auto.
  - unfold Host.handle_each in *. cbn [fold_left fst snd List.filter].
    destruct (IH (Defer.handle from_window data l)) as [Hc Hq].
    rewrite Hc, Hq. unfold Defer.handle, Host.is_own. cbn [fst snd].
    destruct (from_window && String.eqb data Defer.message); [|auto].
    destruct (Defer.queue l) as [|fn rest] eqn:Hqueue.
    + rewrite Hqueue, !take_nil, !drop_nil. auto.
    + cbn [Defer.called Defer.queue length take drop].
      rewrite <- app_assoc. auto.
Qed.

(** X19. With the message queue selected and its queue empty, [defer(fn)]
    for each function of a list posts one message per function, and once
    the listener has handled as many of the module's messages the functions
    have been called, each once, in the order they were given, and the
    queue is empty again. *)
Theorem message_queue_calls_in_order r (fns : list value) l :
  Defer.queue l = [] ->
  Defer.posted (Host.schedule_each (Defer.MessageQueue r) fns l)
  = Defer.posted l ++ repeat Defer.message (length fns)
  /\ Defer.called
       (Host.handle_each (repeat Host.own (length fns))
          (Host.schedule_each (Defer.MessageQueue r) fns l))
     = Defer.called l ++ fns
  /\ Defer.queue
       (Host.handle_each (repeat Host.own (length fns))
          (Host.schedule_each (Defer.MessageQueue r) fns l))
     = [].
Proof.
  intros Hempty.
  destruct (message_queue_schedule_each r fns l) as (Hc & Hq & Hp).
  destruct (handle_own_each (length fns)
              (Host.schedule_each (Defer.MessageQueue r) fns l))
    as [Hcalled Hqueue].
  rewrite Hq, Hempty in Hcalled, Hqueue. simpl in Hcalled, Hqueue.
  split; [exact Hp|]. split.
  - rewrite Hcalled, Hc, take_ge by lia. reflexivity.
  - rewrite Hqueue, drop_ge by lia. reflexivity.
Qed.

Lemma message_queue_calls_in_order_witness :
  Defer.queue (Defer.Loop [] [] [] [] [VFun 9]) = []
  /\ Defer.posted
       (Host.schedule_each (Defer.MessageQueue Defer.AddEventListener)
          [VFun 1; VFun 2; VFun 1] (Defer.Loop [] [] [] [] [VFun 9]))
     = [] ++ repeat Defer.message 3
  /\ Defer.called
       (Host.handle_each (repeat Host.own 3)
          (Host.schedule_each (Defer.MessageQueue Defer.AddEventListener)
             [VFun 1; VFun 2; VFun 1] (Defer.Loop [] [] [] [] [VFun 9])))
     = [VFun 9] ++ [VFun 1; VFun 2; VFun 1]
  /\ Defer.queue
       (Host.handle_each (repeat Host.own 3)
          (Host.schedule_each (Defer.MessageQueue Defer.AddEventListener)
             [VFun 1; VFun 2; VFun 1] (Defer.Loop [] [] [] [] [VFun 9])))
     = [].
Proof.
  split; [reflexivity|].
  apply (message_queue_calls_in_order Defer.AddEventListener
           [VFun 1; VFun 2; VFun 1] (Defer.Loop [] [] [] [] [VFun 9])).
  reflexivity.
Defined.

(** X20. The selection prefers [process.nextTick] to anything the window
    offers, and it throws exactly when there is no [process.nextTick] and
    either no [window], or a [window] with [postMessage] on which neither
    [addEventListener] nor [attachEvent] can register the listener. *)
Theorem defer_throws_iff (env : Defer.environment) :
  (Defer.has_nextTick env = true -> Defer.defer env = Return Defer.NextTick)
  /\ ((exists e, Defer.defer env = Throw e)
      <-> Defer.has_nextTick env = false
          /\ (Defer.window env = None
              \/ exists w,
                   Defer.window env = Some w
                   /\ Defer.postMessage w = true
                   /\ Defer.addEventListener w = false
                   /\ Defer.attachEvent w = false)).
Proof.
  unfold Defer.defer. split.
  - intros ->. reflexivity.
  - destruct (Defer.has_nextTick env).
    + split; [intros [e He]; discriminate|intros [H _]; discriminate].
    + destruct (Defer.window env) as [w|].
      * destruct (Defer.postMessage w) eqn:Hp,
          (Defer.addEventListener w) eqn:Ha, (Defer.attachEvent w) eqn:Ht;
          split;
          try (intros [e He]; discriminate);
          try (intros [_ [H|(w' & Hw & Hp' & Ha' & Ht')]];
               [discriminate|injection Hw as <-; congruence]).
        -- intros _. split; [reflexivity|]. right. exists w. auto.
        -- intros _. eauto.
      * split; [intros _; auto|]. intros _. eauto.
Qed.

(** * Properties of the loader *)

(** X21. The loader settles on AMD whenever [define] is a function with a
    truthy [amd], whatever else the host has.  It throws "Unrecognized
    environment." exactly when none of its three tests holds, and it stops
    on a [ReferenceError] exactly when, not under AMD, [require] is a
    function and [module] is not declared. *)
Theorem factory_unrecognized_iff (g : Loader.globals) :
  (Loader.is_amd g = true -> Loader.factory g = Loader.Done Loader.Amd)
  /\ (Loader.factory g = Loader.Raised (Loader.Exception Loader.unrecognized)
      <-> Loader.is_amd g = false
          /\ (Loader.require g = false
              \/ Loader.module g = Loader.ModuleUndefined
              \/ Loader.module g = Loader.ModuleValue false)
          /\ Loader.this_window g = Some false)
  /\ (Loader.factory g = Loader.Raised Loader.ReferenceError
      <-> Loader.is_amd g = false
          /\ Loader.require g = true
          /\ Loader.module g = Loader.ModuleUndeclared).
Proof.
  unfold Loader.factory, Loader.currentEnvironment, Loader.is_node,
    Loader.is_browser.
  destruct (Loader.is_amd g) eqn:Hamd.
  { split; [reflexivity|]. split; split; try discriminate;
      intros [H _]; discriminate. }
  split; [discriminate|].
  destruct (Loader.require g) eqn:Hr, (Loader.module g) as [| | |[|]] eqn:Hm,
    (Loader.this_window g) as [[|]|] eqn:Hw; simpl;
    (split; split;
     [ try discriminate; intros _; repeat split; auto
     | try (intros (_ & [H|[H|H]] & H'); discriminate);
       try (intros (_ & _ & H'); discriminate); intros _; reflexivity
     | try discriminate; intros _; auto
     | try (intros (_ & H & H'); discriminate); intros _; reflexivity ]).
Qed.
